(** * twisted.mail.relay: relay policy, queueing acceptor and relayer mixin

    A shallow embedding of [twisted/mail/relay.py].  Python objects are
    records, methods are functions in a small state-and-exception monad,
    the file system is a finite map from paths to contents and file
    objects live in a table indexed by their identity. *)

From Stdlib Require Import ZArith Ascii.
From stdpp Require Import gmap strings list.

Local Open Scope string_scope.
Local Open Scope list_scope.

(** ** Python values *)

(** The values that flow through the module: [str] objects, lists, file
    objects (by identity in the table of open files) and [None]. *)
#[warnings="-register-all"]
Inductive PyObj : Type :=
  | PyNone
  | PyStr (s : string)
  | PyList (items : list PyObj)
  | PyFile (fd : nat).

(** ** Addresses, protocols and users *)

(** Modelled from the spec: the peer address types of
    [twisted.internet.address].  A [UNIXAddress] is a local inter-process
    address and carries no [host]; the two routed kinds carry one. *)
Inductive NetAddress : Type :=
  | UNIXAddress (name : string)
  | IPv4Address (type : string) (host : string) (port : Z)
  | IPv6Address (type : string) (host : string) (port : Z).

Definition isinstance_UNIXAddress (peer : NetAddress) : bool :=
  match peer with
  | UNIXAddress _ => true
  | _ => false
  end.

(** Modelled from the spec: the connection context of a user, a protocol
    whose transport reports the address of its peer. *)
Record Transport := { getPeer : NetAddress }.
Record Protocol := { transport : Transport }.

(** Modelled from the spec: an [smtp.Address], of which this module only
    ever takes [str(address)], the full address string. *)
Record MailAddress := { str : string }.

(** Modelled from the spec: an [smtp.User], the candidate carrying the
    sender [orig], the recipient [dest] and the connection context. *)
Record User := {
  dest : MailAddress;
  orig : MailAddress;
  protocol : Protocol
}.

(** ** Exceptions *)

(** [smtp.SMTPBadRcpt], which carries the rejected user, and the
    built-in exceptions the module can run into. *)
Inductive Exn : Type :=
  | SMTPBadRcpt (user : User)
  | IOError (path : string)
  | OSError (path : string)
  | IndexError
  | TypeError
  | AttributeError
  | ValueError
  | UnpicklingError.

(** [IOError] and [OSError] are the two storage failures of Python 2
    ([EnvironmentError]). *)
Definition StorageFailure (e : Exn) : bool :=
  match e with
  | IOError _ | OSError _ => true
  | _ => false
  end.

(** ** The state-and-exception monad *)

Inductive Outcome (A : Type) : Type :=
  | Ok (a : A)
  | Raise (e : Exn).
Arguments Ok {A} a.
Arguments Raise {A} e.

Definition M (St A : Type) : Type := St → Outcome A * St.

Definition ret {St A} (a : A) : M St A := λ s, (Ok a, s).
Definition raise {St A} (e : Exn) : M St A := λ s, (Raise e, s).
Definition bind {St A B} (c : M St A) (k : A → M St B) : M St B :=
  λ s, match c s with
       | (Ok a, s') => k a s'
       | (Raise e, s') => (Raise e, s')
       end.
Definition gets {St A} (f : St → A) : M St A := λ s, (Ok (f s), s).
Definition modify {St} (f : St → St) : M St unit := λ s, (Ok tt, f s).

#[export] Instance M_ret {St} : MRet (M St) := λ A, @ret St A.
#[export] Instance M_bind {St} : MBind (M St) := λ A B k c, bind c k.

(** [try: body finally: cleanup].  The cleanup runs on both exits of the
    body; an exception of the cleanup replaces the body's outcome. *)
Definition try_finally {St A} (body : M St A) (cleanup : M St unit) : M St A :=
  λ s, match body s with
       | (r, s') =>
           match cleanup s' with
           | (Ok _, s'') => (r, s'')
           | (Raise e, s'') => (Raise e, s'')
           end
       end.

(** [for x in xs: body x]. *)
Fixpoint for_ {St A} (xs : list A) (body : A → M St unit) : M St unit :=
  match xs with
  | [] => ret tt
  | x :: xs' => bind (body x) (λ _, for_ xs' body)
  end.

(** Running a computation on a component of a larger state. *)
Definition zoom {St T A} (get : St → T) (set : T → St → St)
    (c : M T A) : M St A :=
  λ s, match c (get s) with
       | (r, t) => (r, set t s)
       end.

(** ** Python indexing and [list.append] *)

Definition getitem (v : PyObj) (i : nat) : Outcome PyObj :=
  match v with
  | PyList items =>
      match items !! i with
      | Some x => Ok x
      | None => Raise IndexError
      end
  | PyStr s =>
      match String.get i s with
      | Some c => Ok (PyStr (String c EmptyString))
      | None => Raise IndexError
      end
  | _ => Raise TypeError
  end.

Definition append (v x : PyObj) : Outcome PyObj :=
  match v with
  | PyList items => Ok (PyList (items ++ [x]))
  | _ => Raise AttributeError
  end.

Definition lift {St A} (r : Outcome A) : M St A := λ s, (r, s).

(** ** The world: files, file objects, free space and the log *)

Inductive Mode := ReadMode | WriteMode.

Record Handle := {
  h_path : string;
  h_mode : Mode;
  h_closed : bool
}.

Inductive LogEvent :=
  | Queueing (orig_repr dest_repr : string).

Record World := {
  files : gmap string string;
  handles : list Handle;
  free_space : nat;
  events : list LogEvent
}.

Definition set_files (f : gmap string string → gmap string string) (w : World) : World :=
  {| files := f (files w); handles := handles w;
     free_space := free_space w; events := events w |}.
Definition set_handles (f : list Handle → list Handle) (w : World) : World :=
  {| files := files w; handles := f (handles w);
     free_space := free_space w; events := events w |}.
Definition set_free_space (f : nat → nat) (w : World) : World :=
  {| files := files w; handles := handles w;
     free_space := f (free_space w); events := events w |}.
Definition set_events (f : list LogEvent → list LogEvent) (w : World) : World :=
  {| files := files w; handles := handles w;
     free_space := free_space w; events := f (events w) |}.

Definition new_handle (path : string) (mode : Mode) : M World nat :=
  λ w, (Ok (length (handles w)),
        set_handles (λ hs, hs ++ [{| h_path := path; h_mode := mode; h_closed := false |}]) w).

(** [open(path)]: reading a file that is not there is an [IOError]. *)
Definition open (path : string) : M World nat :=
  λ w, match files w !! path with
       | Some _ => new_handle path ReadMode w
       | None => (Raise (IOError path), w)
       end.

(** [open(path, 'wb')]: creates the file, or truncates it. *)
Definition open_wb (path : string) : M World nat :=
  λ w, new_handle path WriteMode (set_files (insert path "") w).

(** [fp.close()]. *)
Definition close (fd : nat) : M World unit :=
  modify (set_handles (alter (λ h, {| h_path := h_path h; h_mode := h_mode h;
                                      h_closed := true |}) fd)).

Definition is_closed (w : World) (fd : nat) : bool :=
  match handles w !! fd with
  | Some h => h_closed h
  | None => false
  end.

(** [fp.write(data)]: fails on a closed or read-only file object, and
    with an [IOError] when the device has no room for [data]. *)
Definition write (fd : nat) (data : string) : M World unit :=
  λ w, match handles w !! fd with
       | Some {| h_path := path; h_mode := WriteMode; h_closed := false |} =>
           if decide (String.length data ≤ free_space w)%nat then
             (Ok tt,
              set_free_space (λ n, (n - String.length data)%nat)
                (set_files (λ fs, <[path := default "" (fs !! path) +:+ data]> fs) w))
           else (Raise (IOError path), w)
       | Some {| h_mode := ReadMode; h_closed := false |} => (Raise (IOError ""), w)
       | _ => (Raise ValueError, w)
       end.

(** [fp.read()]. *)
Definition read (fd : nat) : M World string :=
  λ w, match handles w !! fd with
       | Some {| h_path := path; h_mode := ReadMode; h_closed := false |} =>
           match files w !! path with
           | Some data => (Ok data, w)
           | None => (Ok "", w)
           end
       | Some {| h_mode := WriteMode; h_closed := false |} => (Raise (IOError ""), w)
       | _ => (Raise ValueError, w)
       end.

(** [os.remove(path)]: removing a file that is not there is an
    [OSError]. *)
Definition os_remove (path : string) : M World unit :=
  λ w, match files w !! path with
       | Some _ => (Ok tt, set_files (delete path) w)
       | None => (Raise (OSError path), w)
       end.

(** [log.msg]. *)
Definition log_msg (e : LogEvent) : M World unit :=
  modify (set_events (λ es, es ++ [e])).

(** ** [pickle] *)

(** The serializer is a parameter.  All the module asks of it is that a
    list of strings written by [dumps] is read back by [loads]. *)
Class Pickle := {
  dumps : PyObj → string;
  loads : string → option PyObj;
  loads_dumps : ∀ strs : list string,
    loads (dumps (PyList (PyStr <$> strs))) = Some (PyList (PyStr <$> strs))
}.

Section pickle.
Context `{Pickle}.

(** [pickle.dump(obj, file)]. *)
Definition pickle_dump (obj : PyObj) (file : nat) : M World unit :=
  write file (dumps obj).

(** [pickle.load(file)]. *)
Definition pickle_load (file : nat) : M World PyObj :=
  data ← read file;
  match loads data with
  | Some obj => ret obj
  | None => raise UnpicklingError
  end.
End pickle.

(** ** The queue of the mail service *)

(** Modelled from the spec: the queue store behind [self.service.queue],
    whose class is not part of this module.  [createNewMessage] allocates
    a base key that collides with no existing artifact, creates the
    header artifact ([-H]) and the data artifact ([-D]) under it, and
    returns the handle of the header and the message sink, which is the
    handle of the data artifact. *)
Record Queue := {
  allocate : gmap string string → string;
  allocate_fresh : ∀ fs : gmap string string,
    fs !! (allocate fs +:+ "-H") = None ∧ fs !! (allocate fs +:+ "-D") = None
}.

Definition createNewMessage (queue : Queue) : M World (nat * PyObj) :=
  key ← gets (λ w, allocate queue (files w));
  headerFile ← open_wb (key +:+ "-H");
  messageFile ← open_wb (key +:+ "-D");
  mret (headerFile, PyFile messageFile).

Record MailService := { queue : Queue }.

(** ** Relay rules *)

(** The interface of [AbstractRelayRules] and its subclasses. *)
Record RelayRules := {
  rules_willRelay : MailAddress → Protocol → bool → bool
}.

Module AbstractRelayRules.
Definition willRelay (address : MailAddress) (protocol : Protocol)
    (authorized : bool) : bool :=
  false.

Definition new : RelayRules := {| rules_willRelay := willRelay |}.
End AbstractRelayRules.

(** [peer.host]; never evaluated on a [UNIXAddress], which has none. *)
Definition host (peer : NetAddress) : option string :=
  match peer with
  | UNIXAddress _ => None
  | IPv4Address _ h _ | IPv6Address _ h _ => Some h
  end.

Module DomainQueuerRelayRules.
Definition willRelay (address : MailAddress) (protocol : Protocol)
    (authorized : bool) : bool :=
  let peer := getPeer (transport protocol) in
  if authorized then true
  else if isinstance_UNIXAddress peer then true
  else bool_decide (host peer = Some "127.0.0.1").

Definition new : RelayRules := {| rules_willRelay := willRelay |}.
End DomainQueuerRelayRules.

(** ** [str.split(sep, 1)] and [filter(None, ...)] *)

(** [s.partition(sep)] when [sep] occurs in [s]. *)
Fixpoint cut (sep : Ascii.ascii) (s : string) : option (string * string) :=
  match s with
  | EmptyString => None
  | String c s' =>
      if Ascii.eqb c sep then Some (EmptyString, s')
      else match cut sep s' with
           | Some (before, after) => Some (String c before, after)
           | None => None
           end
  end.

(** [s.split(sep, 1)]. *)
Definition split1 (s : string) (sep : Ascii.ascii) : list string :=
  match cut sep s with
  | Some (before, after) => [before; after]
  | None => [s]
  end.

(** [filter(None, parts)] on a list of strings: the empty string is the
    only false one. *)
Definition filter_None (parts : list string) : list string :=
  List.filter (λ part, negb (String.eqb part "")) parts.

(** ** DomainQueuer *)

Module DomainQueuer.
Record t := {
  service : MailService;
  authed : bool;
  relayRules : RelayRules
}.

Definition __init__ (service : MailService) (authenticated : bool)
    (relayRules : option RelayRules) : t :=
  {| service := service;
     authed := authenticated;
     relayRules := match relayRules with
                   | Some rules => rules
                   | None => DomainQueuerRelayRules.new
                   end |}.

Definition willRelay (self : t) (address : MailAddress)
    (protocol : Protocol) : bool :=
  rules_willRelay (relayRules self) address protocol (authed self).

Section methods.
Context `{Pickle}.

Definition startMessage (self : t) (user : User) : M World PyObj :=
  let queue := queue (service self) in
  '(envelopeFile, smtpMessage) ← createNewMessage queue;
  try_finally
    (log_msg (Queueing (str (orig user)) (str (dest user)));;
     pickle_dump (PyList [PyStr (str (orig user)); PyStr (str (dest user))])
       envelopeFile)
    (close envelopeFile);;
  mret smtpMessage.

Definition exists_ (self : t) (user : User) : M World (M World PyObj) :=
  if willRelay self (dest user) (protocol user) then
    let orig := filter_None (split1 (str (orig user)) "@"%char) in
    let dest := filter_None (split1 (str (dest user)) "@"%char) in
    if bool_decide (length orig = 2%nat) && bool_decide (length dest = 2%nat) then
      mret (startMessage self user)
    else raise (SMTPBadRcpt user)
  else raise (SMTPBadRcpt user).
End methods.
End DomainQueuer.

(** ** RelayerMixin *)

Module RelayerMixin.
(** The two attributes of the mixin, next to the world it acts on. *)
Record t := {
  messages : list PyObj;
  names : list string;
  world : World
}.

Definition set_messages (f : list PyObj → list PyObj) (self : t) : t :=
  {| messages := f (messages self); names := names self; world := world self |}.
Definition set_names (f : list string → list string) (self : t) : t :=
  {| messages := messages self; names := f (names self); world := world self |}.
Definition set_world (w : World) (self : t) : t :=
  {| messages := messages self; names := names self; world := w |}.

Definition io {A} (c : M World A) : M t A := zoom world set_world c.

(** [l[0]] and [del l[0]] on an attribute. *)
Definition index0 {A} (l : list A) : M t A :=
  match l with
  | x :: _ => ret x
  | [] => raise IndexError
  end.

Definition del0 {A} (get : t → list A) (set : (list A → list A) → t → t) : M t unit :=
  l ← gets get;
  match l with
  | _ :: _ => modify (set (drop 1))
  | [] => raise IndexError
  end.

Section methods.
Context `{Pickle} (SUCCESS : gset Z).

Definition loadMessages (messagePaths : list string) : M t unit :=
  modify (set_messages (λ _, []));;
  modify (set_names (λ _, []));;
  for_ messagePaths (λ message,
    fp ← io (open (message +:+ "-H"));
    messageContents ← io (try_finally (pickle_load fp) (close fp));
    fp ← io (open (message +:+ "-D"));
    messageContents ← lift (append messageContents (PyFile fp));
    modify (set_messages (λ ms, ms ++ [messageContents]));;
    modify (set_names (λ ns, ns ++ [message]))).

Definition getMailFrom : M t PyObj :=
  ms ← gets messages;
  if bool_decide (ms = []) then mret PyNone
  else
    m ← index0 ms;
    lift (getitem m 0).

Definition getMailTo : M t PyObj :=
  ms ← gets messages;
  if bool_decide (ms = []) then mret PyNone
  else
    m ← index0 ms;
    x ← lift (getitem m 1);
    mret (PyList [x]).

Definition getMailData : M t PyObj :=
  ms ← gets messages;
  if bool_decide (ms = []) then mret PyNone
  else
    m ← index0 ms;
    lift (getitem m 2).

Definition sentMail (code : Z) (resp : string) (numOk : Z)
    (addresses : list PyObj) (log : PyObj) : M t unit :=
  (if bool_decide (code ∈ SUCCESS) then
     name ← gets names ≫= index0;
     io (os_remove (name +:+ "-D"));;
     name ← gets names ≫= index0;
     io (os_remove (name +:+ "-H"))
   else mret tt);;
  del0 messages set_messages;;
  del0 names set_names.
End methods.
End RelayerMixin.

(** ** SMTPRelayer and ESMTPRelayer *)

(** Both constructors initialise the client base class, which is not
    part of this module and does not touch the queue, and then load the
    batch into the new object. *)
Module SMTPRelayer.
Definition __init__ `{Pickle} (messagePaths : list string) (w : World) :
    Outcome unit * RelayerMixin.t :=
  RelayerMixin.loadMessages messagePaths
    {| RelayerMixin.messages := []; RelayerMixin.names := [];
       RelayerMixin.world := w |}.
End SMTPRelayer.

Module ESMTPRelayer.
Definition __init__ `{Pickle} (messagePaths : list string) (w : World) :
    Outcome unit * RelayerMixin.t :=
  RelayerMixin.loadMessages messagePaths
    {| RelayerMixin.messages := []; RelayerMixin.names := [];
       RelayerMixin.world := w |}.
End ESMTPRelayer.

(** ** What the specification calls a well-formed address *)

Fixpoint occurs (c : ascii) (s : string) : bool :=
  match s with
  | EmptyString => false
  | String c' s' => if Ascii.eqb c' c then true else occurs c s'
  end.

(** The address splits on its first ['@'] into exactly two non-empty
    parts: a non-empty local part without ['@'], the ['@'], and a
    non-empty rest. *)
Definition two_nonempty_parts (s : string) : Prop :=
  ∃ localpart domain : string,
    s = localpart +:+ String "@" domain ∧
    occurs "@" localpart = false ∧
    localpart ≠ "" ∧ domain ≠ "".

(** ** Notions the statements use *)

Import RelayerMixin.

Section notions.
Context `{Pickle}.

(** The serialized envelope of a user: [[str(user.orig), str(user.dest)]]. *)
Definition envelope (user : User) : string :=
  dumps (PyList [PyStr (str (orig user)); PyStr (str (dest user))]).

(** The body of the loop of [loadMessages]. *)
Definition load_one (message : string) : M t unit :=
  fp ← io (open (message +:+ "-H"));
  messageContents ← io (try_finally (pickle_load fp) (close fp));
  fp ← io (open (message +:+ "-D"));
  messageContents ← lift (append messageContents (PyFile fp));
  modify (set_messages (λ ms, ms ++ [messageContents]));;
  modify (set_names (λ ns, ns ++ [message])).
End notions.

(** The file objects [loadMessages] leaves in the table for a base key:
    the header, read and closed, and the data artifact, left open. *)
Definition header_handle (message : string) (closed : bool) : Handle :=
  {| h_path := message +:+ "-H"; h_mode := ReadMode; h_closed := closed |}.
Definition data_handle (message : string) : Handle :=
  {| h_path := message +:+ "-D"; h_mode := ReadMode; h_closed := false |}.

(** [m] is the item loaded for the base key [name]: a list that ends
    with the file object opened on the data artifact of [name]. *)
Definition item_of (w : World) (m : PyObj) (name : string) : Prop :=
  ∃ (contents : list PyObj) (fd : nat),
    m = PyList (contents ++ [PyFile fd]) ∧
    handles w !! fd = Some (data_handle name).

(** [messages] and [names] have one length and [names[i]] is the base
    key of [messages[i]]. *)
Definition aligned (self : t) : Prop :=
  Forall2 (item_of (world self)) (messages self) (names self).

(** ** A concrete environment

    One serializer, one key allocator and one set of success codes, to
    run the module on. *)

Module Example.
(** A serializer of lists of strings: every item starts with [;],
    every character of an item follows a [+], and [.] ends the list. *)
Fixpoint quote (s : string) (tail : string) : string :=
  match s with
  | EmptyString => tail
  | String c s' => String "+" (String c (quote s' tail))
  end.

Definition dump_item (item : PyObj) (tail : string) : string :=
  match item with
  | PyStr s => String ";" (quote s tail)
  | _ => String "?" tail
  end.

Definition encode (obj : PyObj) : string :=
  match obj with
  | PyList items => foldr dump_item "." items
  | _ => "?"
  end.

Fixpoint unquote (data : string) : option (string * list string) :=
  match data with
  | String "." EmptyString => Some (EmptyString, [])
  | String "+" (String c data') =>
      match unquote data' with
      | Some (current, rest) => Some (String c current, rest)
      | None => None
      end
  | String ";" data' =>
      match unquote data' with
      | Some (current, rest) => Some (EmptyString, current :: rest)
      | None => None
      end
  | _ => None
  end.

Definition decode (data : string) : option PyObj :=
  match unquote data with
  | Some (EmptyString, strs) => Some (PyList (PyStr <$> strs))
  | _ => None
  end.

Lemma append_cons (c : ascii) (s1 s2 : string) :
  String c s1 +:+ s2 = String c (s1 +:+ s2).
Proof. reflexivity. Qed.

Lemma append_empty (s : string) : s +:+ "" = s.
Proof. induction s as [| c s IH]; [done | by rewrite append_cons, IH]. Qed.

Lemma unquote_quote (s tail current : string) (rest : list string) :
  unquote tail = Some (current, rest) →
  unquote (quote s tail) = Some (s +:+ current, rest).
Proof.
  intros Htail. induction s as [| c s IH]; [done |].
  rewrite append_cons. simpl. by rewrite IH.
Qed.

Lemma unquote_items (strs : list string) :
  unquote (foldr dump_item "." (PyStr <$> strs)) = Some ("", strs).
Proof.
  induction strs as [| s strs IH]; [done |].
  cbn [fmap list_fmap foldr dump_item].
  change (unquote (String ";" ?x)) with
    (match unquote x with
     | Some (current, rest) => Some (EmptyString, current :: rest)
     | None => None
     end).
  by rewrite (unquote_quote s _ "" strs IH), append_empty.
Qed.

Lemma decode_encode (strs : list string) :
  decode (encode (PyList (PyStr <$> strs))) = Some (PyList (PyStr <$> strs)).
Proof. unfold decode, encode. by rewrite unquote_items. Qed.

#[export] Instance pickle : Pickle :=
  {| dumps := encode; loads := decode; loads_dumps := decode_encode |}.

(** An allocator of base keys: a key longer than every path on disk. *)
Fixpoint pad (n : nat) : string :=
  match n with
  | O => EmptyString
  | S n' => String "q" (pad n')
  end.

Definition longest (fs : gmap string string) : nat :=
  max_list (String.length <$> elements (dom fs)).

Definition next_key (fs : gmap string string) : string :=
  pad (S (longest fs)).

Lemma length_pad (n : nat) : String.length (pad n) = n.
Proof. induction n as [| n IH]; simpl; [done | by rewrite IH]. Qed.

Lemma length_append (s1 s2 : string) :
  String.length (s1 +:+ s2) = (String.length s1 + String.length s2)%nat.
Proof. induction s1 as [| c s1 IH]; [done | by rewrite append_cons; simpl; rewrite IH]. Qed.

Lemma longer_is_fresh (fs : gmap string string) (path : string) :
  (longest fs < String.length path)%nat → fs !! path = None.
Proof.
  intros Hlong. destruct (fs !! path) as [data |] eqn:Hpath; [| done].
  assert (String.length path ∈ String.length <$> elements (dom fs)) as Hin.
  { apply list_elem_of_fmap. exists path. split; [done |].
    apply elem_of_elements, elem_of_dom. eauto. }
  apply max_list_elem_of_le in Hin. unfold longest in Hlong. lia.
Qed.

Lemma next_key_fresh (fs : gmap string string) :
  fs !! (next_key fs +:+ "-H") = None ∧ fs !! (next_key fs +:+ "-D") = None.
Proof.
  split; apply longer_is_fresh; unfold next_key;
    rewrite length_append, length_pad; simpl; lia.
Qed.

Definition store : Queue :=
  {| allocate := next_key; allocate_fresh := next_key_fresh |}.

(** Three of the codes of [smtp.SUCCESS]. *)
Definition SUCCESS : gset Z := {[ 200%Z; 250%Z; 251%Z ]}.

(** A user on a loopback connection, a disk with nothing on it and a
    domain whose service queues there. *)
Definition user : User :=
  {| dest := {| str := "b@y" |}; orig := {| str := "a@x" |};
     protocol := {| transport :=
       {| getPeer := IPv4Address "TCP" "127.0.0.1" 25%Z |} |} |}.

Definition disk (room : nat) : World :=
  {| files := ∅; handles := []; free_space := room; events := [] |}.

Definition domain : DomainQueuer.t :=
  DomainQueuer.__init__ {| queue := store |} false None.

(** The world once the envelope of [user] is queued, and relayers built
    over the key of that envelope. *)
Definition queued : World := (DomainQueuer.startMessage domain user (disk 64)).2.

Definition loaded : RelayerMixin.t := (SMTPRelayer.__init__ ["q"] queued).2.

Definition loaded_twice : RelayerMixin.t :=
  (SMTPRelayer.__init__ ["q"; "q"] queued).2.
End Example.

(** * Properties *)

Ltac run_monad :=
  unfold mbind, M_bind, mret, M_ret, bind, ret, raise, gets, modify, lift,
    io, zoom, index0, del0 in *.

(** ** The definitions on small inputs *)

Example split1_first_at_only : split1 "a@b@c" "@" = ["a"; "b@c"].
Proof. reflexivity. Qed.

Example split1_without_at : split1 "postmaster" "@" = ["postmaster"].
Proof. reflexivity. Qed.

Example filter_None_empty_local_part : filter_None (split1 "@y" "@") = ["y"].
Proof. reflexivity. Qed.

Example filter_None_lone_at : filter_None (split1 "@" "@") = [].
Proof. reflexivity. Qed.

Example willRelay_IPv6_loopback_refused :
  DomainQueuerRelayRules.willRelay {| str := "b@y" |}
    {| transport := {| getPeer := IPv6Address "TCP" "::1" 25%Z |} |} false = false.
Proof. reflexivity. Qed.

Example willRelay_UNIX_socket :
  DomainQueuerRelayRules.willRelay {| str := "b@y" |}
    {| transport := {| getPeer := UNIXAddress "/var/run/mail.sock" |} |} false = true.
Proof. reflexivity. Qed.

Example exists_rejects_empty_domain :
  let user := {| dest := {| str := "b@" |}; orig := {| str := "a@x" |};
                 protocol := protocol Example.user |} in
  (@DomainQueuer.exists_ Example.pickle Example.domain user (Example.disk 64)).1
    = Raise (SMTPBadRcpt user).
Proof. reflexivity. Qed.

Example queued_files :
  map_to_list (files Example.queued) = [("q-D", ""); ("q-H", ";+a+@+x;+b+@+y.")].
Proof. vm_compute. reflexivity. Qed.

Example loaded_messages :
  messages Example.loaded = [PyList [PyStr "a@x"; PyStr "b@y"; PyFile 3]] ∧
  names Example.loaded = ["q"].
Proof. vm_compute. split; reflexivity. Qed.

(** ** The relay policy *)

Lemma init_default_rules service authenticated address protocol :
  DomainQueuer.willRelay (DomainQueuer.__init__ service authenticated None)
    address protocol
  = DomainQueuerRelayRules.willRelay address protocol authenticated.
Proof. reflexivity. Qed.

(** C1: the default policy relays exactly when the originator is
    authenticated, or the peer is a UNIX-socket address, or the peer's
    host is ['127.0.0.1'].  In particular it relays whenever
    [authorized] is true, whatever the peer, and refuses every
    unauthenticated connection whose peer is neither a UNIX-socket
    address nor the loopback host. *)
Theorem willRelay_default_policy (address : MailAddress) (protocol : Protocol)
    (authorized : bool) :
  let peer := getPeer (transport protocol) in
  (DomainQueuerRelayRules.willRelay address protocol authorized = true ↔
     authorized = true ∨ (∃ name, peer = UNIXAddress name) ∨
     host peer = Some "127.0.0.1") ∧
  (authorized = true →
     DomainQueuerRelayRules.willRelay address protocol authorized = true) ∧
  (authorized = false → (∀ name, peer ≠ UNIXAddress name) →
     host peer ≠ Some "127.0.0.1" →
     DomainQueuerRelayRules.willRelay address protocol authorized = false).
Proof.
  unfold DomainQueuerRelayRules.willRelay.
  destruct protocol as [[peer]]; simpl.
  destruct authorized; simpl.
  { split; [split; auto | split; [done | discriminate]]. }
  destruct peer as [name | ty h p | ty h p]; simpl;
    rewrite ?bool_decide_eq_true, ?bool_decide_eq_false.
  - split; [split; eauto | split; [discriminate |]].
    intros _ Hne. by destruct (Hne name).
  - split; [split; [auto | intros [? | [[? ?] | ?]]; done] | split; [discriminate | auto]].
  - split; [split; [auto | intros [? | [[? ?] | ?]]; done] | split; [discriminate | auto]].
Qed.

(** ** Address validation *)

Lemma cut_app (sep : ascii) (before after : string) :
  occurs sep before = false →
  cut sep (before +:+ String sep after) = Some (before, after).
Proof.
  induction before as [| c before IH]; simpl.
  - intros _. by rewrite Ascii.eqb_refl.
  - destruct (Ascii.eqb c sep); [done |]. intros Hocc. by rewrite IH.
Qed.

Lemma cut_Some (sep : ascii) (s before after : string) :
  cut sep s = Some (before, after) →
  s = before +:+ String sep after ∧ occurs sep before = false.
Proof.
  revert before. induction s as [| c s IH]; simpl; [done |].
  intros before. destruct (Ascii.eqb c sep) eqn:Hc.
  - apply Ascii.eqb_eq in Hc as ->. by intros [= <- <-].
  - destruct (cut sep s) as [[b a] |]; [| done].
    intros [= <- <-]. destruct (IH b eq_refl) as [-> Hocc].
    simpl. by rewrite Hc.
Qed.

Lemma eqb_empty_false (s : string) : s ≠ "" → String.eqb s "" = false.
Proof. intros Hne. by apply String.eqb_neq. Qed.

Lemma split_two_nonempty_parts (s : string) :
  length (filter_None (split1 s "@")) = 2%nat ↔ two_nonempty_parts s.
Proof.
  unfold split1, two_nonempty_parts. split.
  - destruct (cut "@" s) as [[before after] |] eqn:Hcut.
    + apply cut_Some in Hcut as [-> Hocc]. simpl.
      destruct (String.eqb before "") eqn:Hb; simpl;
        destruct (String.eqb after "") eqn:Ha; simpl; try done.
      intros _. exists before, after.
      apply String.eqb_neq in Hb, Ha. done.
    + simpl. by destruct (negb (String.eqb s "")).
  - intros (localpart & domain & -> & Hocc & Hl & Hd).
    rewrite (cut_app _ _ _ Hocc). simpl.
    by rewrite !eqb_empty_false.
Qed.

(** ** The table of file objects *)

Lemma lookup_snoc2_l {A} (l : list A) (x y : A) :
  ((l ++ [x]) ++ [y]) !! length l = Some x.
Proof. rewrite <- app_assoc. by apply list_lookup_middle. Qed.

Lemma alter_snoc2_l {A} (f : A → A) (l : list A) (x y : A) :
  alter f (length l) ((l ++ [x]) ++ [y]) = l ++ [f x; y].
Proof. induction l as [| z l IH]; simpl; [done | by f_equal]. Qed.

Lemma suffix_H_D (key : string) : key +:+ "-H" ≠ key +:+ "-D".
Proof. induction key as [| c key IH]; simpl; [done | by intros [= ?]]. Qed.

(** ** The acceptor *)

Section acceptor.
Context `{Pickle}.

(** What one call of [startMessage] does to the world, on its two
    exits: the envelope is written, or the device is full. *)
Lemma startMessage_run (self : DomainQueuer.t) (user : User) (w : World) :
  let key := allocate (queue (DomainQueuer.service self)) (files w) in
  let fd := length (handles w) in
  let r := DomainQueuer.startMessage self user w in
  handles r.2 =
    handles w ++ [ {| h_path := key +:+ "-H"; h_mode := WriteMode; h_closed := true |};
                   {| h_path := key +:+ "-D"; h_mode := WriteMode; h_closed := false |} ] ∧
  events r.2 = events w ++ [Queueing (str (orig user)) (str (dest user))] ∧
  if decide (String.length (envelope user) ≤ free_space w)%nat then
    r.1 = Ok (PyFile (S fd)) ∧
    files r.2 = <[key +:+ "-H" := envelope user]> (<[key +:+ "-D" := ""]> (files w)) ∧
    free_space r.2 = (free_space w - String.length (envelope user))%nat
  else
    r.1 = Raise (IOError (key +:+ "-H")) ∧
    files r.2 = <[key +:+ "-H" := ""]> (<[key +:+ "-D" := ""]> (files w)) ∧
    free_space r.2 = free_space w.
Proof.
  unfold DomainQueuer.startMessage, createNewMessage, envelope.
  unfold mbind, M_bind, mret, M_ret, bind, gets, open_wb, new_handle, ret. simpl.
  unfold try_finally, log_msg, modify, pickle_dump, write, close. simpl.
  rewrite lookup_snoc2_l. simpl.
  pose proof (suffix_H_D (allocate (queue (DomainQueuer.service self)) (files w))) as Hne.
  set (key := allocate (queue (DomainQueuer.service self)) (files w)) in *.
  assert (Hswap : ∀ x : string,
    <[key +:+ "-D" := ""]> (<[key +:+ "-H" := x]> (files w)) =
    <[key +:+ "-H" := x]> (<[key +:+ "-D" := ""]> (files w))).
  { intros x. apply insert_insert_ne. done. }
  case_decide; simpl; rewrite alter_snoc2_l, ?length_app, ?Nat.add_1_r; simpl.
  - rewrite lookup_insert_ne, lookup_insert_eq by done. simpl.
    by rewrite Hswap, insert_insert_eq.
  - by rewrite Hswap.
Qed.

Lemma startMessage_factory (self : DomainQueuer.t) (user : User) (w0 : World) :
  (String.length (envelope user) ≤ free_space w0)%nat →
  let key := allocate (queue (DomainQueuer.service self)) (files w0) in
  let sink := S (length (handles w0)) in
  let r0 := DomainQueuer.startMessage self user w0 in
  files w0 !! (key +:+ "-H") = None ∧ files w0 !! (key +:+ "-D") = None ∧
  r0.1 = Ok (PyFile sink) ∧
  handles r0.2 !! sink =
    Some {| h_path := key +:+ "-D"; h_mode := WriteMode; h_closed := false |} ∧
  files r0.2 !! (key +:+ "-H") = Some (envelope user) ∧
  files r0.2 !! (key +:+ "-D") = Some "".
Proof.
  intros Hroom. simpl.
  pose proof (allocate_fresh (queue (DomainQueuer.service self)) (files w0)) as [HH HD].
  pose proof (startMessage_run self user w0) as (Hh & _ & Hrun). simpl in Hh, Hrun.
  rewrite decide_True in Hrun by done. destruct Hrun as (Hr & Hf & _).
  pose proof (suffix_H_D (allocate (queue (DomainQueuer.service self)) (files w0))).
  rewrite Hh, Hf. repeat split; try done.
  - replace (S (length (handles w0))) with (length (handles w0) + 1)%nat by lia.
    by rewrite lookup_app_r, Nat.add_comm, Nat.add_sub by lia.
  - by rewrite lookup_insert_eq.
  - by rewrite lookup_insert_ne, lookup_insert_eq.
Qed.

Lemma createNewMessage_run (q : Queue) (w : World) :
  let key := allocate q (files w) in
  let fd := length (handles w) in
  createNewMessage q w =
    (Ok (fd, PyFile (S fd)),
     {| files := <[key +:+ "-D" := ""]> (<[key +:+ "-H" := ""]> (files w));
        handles := handles w ++
          [ {| h_path := key +:+ "-H"; h_mode := WriteMode; h_closed := false |};
            {| h_path := key +:+ "-D"; h_mode := WriteMode; h_closed := false |} ];
        free_space := free_space w;
        events := events w |}).
Proof.
  unfold createNewMessage.
  unfold mbind, M_bind, mret, M_ret, bind, gets, open_wb, new_handle, ret. simpl.
  unfold set_handles, set_files. simpl.
  by rewrite length_app, Nat.add_1_r, <- app_assoc.
Qed.

(** C2: [exists] raises [SMTPBadRcpt] exactly when the relay rules
    deny the request or one of the two addresses does not split on its
    first ['@'] into two non-empty parts; when it raises, the world
    (files, file objects, queue) is what it was.  Otherwise it returns
    the factory [startMessage(user)], leaving the world as it was too;
    and running that factory where the device has room for the
    envelope allocates a key with no artifact under it, creates the
    header and the data artifact there and returns the sink, the open
    file object of the data artifact. *)
Theorem exists_rejects_iff (self : DomainQueuer.t) (user : User) (w : World) :
  let denied := DomainQueuer.willRelay self (dest user) (protocol user) = false in
  let malformed := ¬ two_nonempty_parts (str (orig user)) ∨
                   ¬ two_nonempty_parts (str (dest user)) in
  let r := DomainQueuer.exists_ self user w in
  (r.1 = Raise (SMTPBadRcpt user) ↔ denied ∨ malformed) ∧
  (r.1 = Raise (SMTPBadRcpt user) → r.2 = w) ∧
  (¬ (denied ∨ malformed) → r = (Ok (DomainQueuer.startMessage self user), w)) ∧
  (∀ w0 : World,
     (String.length (envelope user) ≤ free_space w0)%nat →
     let key := allocate (queue (DomainQueuer.service self)) (files w0) in
     let sink := S (length (handles w0)) in
     let r0 := DomainQueuer.startMessage self user w0 in
     files w0 !! (key +:+ "-H") = None ∧ files w0 !! (key +:+ "-D") = None ∧
     r0.1 = Ok (PyFile sink) ∧
     handles r0.2 !! sink =
       Some {| h_path := key +:+ "-D"; h_mode := WriteMode; h_closed := false |} ∧
     files r0.2 !! (key +:+ "-H") = Some (envelope user) ∧
     files r0.2 !! (key +:+ "-D") = Some "").
Proof.
  simpl. unfold DomainQueuer.exists_.
  rewrite <- !split_two_nonempty_parts.
  destruct (DomainQueuer.willRelay self (dest user) (protocol user)); simpl.
  - destruct (bool_decide (length (filter_None (split1 (str (orig user)) "@")) = 2%nat))
      eqn:Ho; simpl.
    + destruct (bool_decide (length (filter_None (split1 (str (dest user)) "@")) = 2%nat))
        eqn:Hd; simpl.
      * apply bool_decide_eq_true in Ho, Hd.
        split; [| split; [| split]].
        -- split; [done |]. intros [? | [? | ?]]; done.
        -- done.
        -- done.
        -- apply startMessage_factory.
      * apply bool_decide_eq_true in Ho. apply bool_decide_eq_false in Hd.
        split; [| split; [| split]].
        -- split; auto.
        -- done.
        -- intros Hno. destruct Hno. auto.
        -- apply startMessage_factory.
    + apply bool_decide_eq_false in Ho.
      split; [| split; [| split]].
      * split; auto.
      * done.
      * intros Hno. destruct Hno. auto.
      * apply startMessage_factory.
  - split; [| split; [| split]].
    + split; auto.
    + done.
    + intros Hno. destruct Hno. auto.
    + apply startMessage_factory.
Qed.

(** C7: whatever the world, the envelope file object handed out by
    [createNewMessage] is open when [startMessage] receives it and
    closed when [startMessage] is left, on both exits: when the
    envelope is written and the sink returned, and when the write
    fails for lack of room, where the [IOError] reaches the caller
    with the file object already closed. *)
Theorem startMessage_closes_envelopeFile (self : DomainQueuer.t) (user : User)
    (w : World) :
  let q := queue (DomainQueuer.service self) in
  let key := allocate q (files w) in
  let r := DomainQueuer.startMessage self user w in
  ∃ (envelopeFile : nat) (smtpMessage : PyObj),
    (createNewMessage q w).1 = Ok (envelopeFile, smtpMessage) ∧
    handles (createNewMessage q w).2 !! envelopeFile =
      Some {| h_path := key +:+ "-H"; h_mode := WriteMode; h_closed := false |} ∧
    is_closed r.2 envelopeFile = true ∧
    ((String.length (envelope user) ≤ free_space w)%nat → r.1 = Ok smtpMessage) ∧
    ((free_space w < String.length (envelope user))%nat →
       r.1 = Raise (IOError (key +:+ "-H")) ∧ is_closed r.2 envelopeFile = true).
Proof.
  cbv zeta. rewrite createNewMessage_run. cbn [fst snd handles].
  exists (length (handles w)), (PyFile (S (length (handles w)))).
  pose proof (startMessage_run self user w) as (Hh & _ & Hrun). simpl in Hh, Hrun.
  assert (is_closed (DomainQueuer.startMessage self user w).2 (length (handles w)) = true)
    as Hclosed.
  { unfold is_closed. rewrite Hh. by rewrite list_lookup_middle. }
  split; [done |]. split; [by rewrite list_lookup_middle |].
  split; [done |].
  case_decide as Hroom.
  - destruct Hrun as (Hr & _ & _). split; [done | lia].
  - destruct Hrun as (Hr & _ & _). split; [lia | done].
Qed.
End acceptor.

(** ** The relayer: reporting a delivery *)


Lemma suffix_D_H (key : string) : key +:+ "-D" ≠ key +:+ "-H".
Proof. intros Heq. by apply (suffix_H_D key). Qed.

Section sentMail.
Context (SUCCESS : gset Z).

Lemma os_remove_run (path : string) (w : World) :
  os_remove path w =
    match files w !! path with
    | Some _ => (Ok tt, set_files (delete path) w)
    | None => (Raise (OSError path), w)
    end.
Proof. reflexivity. Qed.

(** A status code outside [smtp.SUCCESS]: the front of both lists
    goes, the world stays. *)
Lemma sentMail_failure_code (self : t) code resp numOk addresses log m ms name ns :
  code ∉ SUCCESS → messages self = m :: ms → names self = name :: ns →
  sentMail SUCCESS code resp numOk addresses log self =
    (Ok tt, {| messages := ms; names := ns; world := world self |}).
Proof.
  destruct self as [msgs nms w]. simpl. intros Hcode -> ->.
  unfold sentMail. rewrite bool_decide_eq_false_2 by done.
  run_monad. simpl. reflexivity.
Qed.

(** A status code in [smtp.SUCCESS]: the four ways the call can go. *)
Lemma sentMail_success_code (self : t) code resp numOk addresses log name ns :
  code ∈ SUCCESS → names self = name :: ns →
  sentMail SUCCESS code resp numOk addresses log self =
    match files (world self) !! (name +:+ "-D") with
    | None => (Raise (OSError (name +:+ "-D")), self)
    | Some _ =>
      match files (world self) !! (name +:+ "-H") with
      | None => (Raise (OSError (name +:+ "-H")),
                 set_world (set_files (delete (name +:+ "-D")) (world self)) self)
      | Some _ =>
        let w' := set_files (delete (name +:+ "-H"))
                    (set_files (delete (name +:+ "-D")) (world self)) in
        match messages self with
        | [] => (Raise IndexError, set_world w' self)
        | _ :: ms => (Ok tt, {| messages := ms; names := ns; world := w' |})
        end
      end
    end.
Proof.
  destruct self as [msgs nms w]. simpl. intros Hcode ->.
  unfold sentMail. rewrite bool_decide_eq_true_2 by done.
  run_monad. simpl. rewrite os_remove_run.
  destruct (files w !! (name +:+ "-D")) as [d |] eqn:HD; simpl; [| done].
  rewrite os_remove_run. simpl.
  rewrite lookup_delete_ne by apply suffix_D_H.
  destruct (files w !! (name +:+ "-H")) as [h |] eqn:HH; simpl; [| done].
  run_monad. simpl. by destruct msgs.
Qed.

(** C3: on a non-empty batch and a status code in [smtp.SUCCESS],
    [sentMail] returns when both artifacts of the front item are on
    disk, and whenever it returns, the data artifact (base key + '-D')
    and the header artifact (base key + '-H') of the front item were
    on disk before the call and are gone after it. *)
Theorem sentMail_success_removes_both (self : t) (code : Z) (resp : string)
    (numOk : Z) (addresses : list PyObj) (log : PyObj)
    (m : PyObj) (ms : list PyObj) (name : string) (ns : list string) :
  code ∈ SUCCESS → messages self = m :: ms → names self = name :: ns →
  let r := sentMail SUCCESS code resp numOk addresses log self in
  (is_Some (files (world self) !! (name +:+ "-D")) →
   is_Some (files (world self) !! (name +:+ "-H")) → r.1 = Ok tt) ∧
  (r.1 = Ok tt →
   is_Some (files (world self) !! (name +:+ "-D")) ∧
   is_Some (files (world self) !! (name +:+ "-H")) ∧
   files (world r.2) !! (name +:+ "-D") = None ∧
   files (world r.2) !! (name +:+ "-H") = None).
Proof.
  intros Hcode Hm Hn. cbv zeta.
  rewrite (sentMail_success_code self code resp numOk addresses log name ns Hcode Hn).
  rewrite Hm.
  destruct (files (world self) !! (name +:+ "-D")) as [d |] eqn:HD;
    destruct (files (world self) !! (name +:+ "-H")) as [h |] eqn:HH; simpl.
  - split; [done |]. intros _. repeat split; eauto.
    + rewrite lookup_delete_ne by apply suffix_H_D. apply lookup_delete_eq.
    + apply lookup_delete_eq.
  - split; [by intros _ [? ?] | done].
  - split; [by intros [? ?] | done].
  - split; [by intros [? ?] | done].
Qed.

(** C4, as the code has it: on a non-empty batch, a call of [sentMail]
    that returns has removed exactly the front item of the batch, so
    the item loaded right after it is the current one; a status code
    outside [smtp.SUCCESS] always returns and leaves every file where
    it is; a status code in [smtp.SUCCESS] returns when both artifacts
    of the front item are on disk, and otherwise raises the [OSError]
    of the removal that failed and leaves the batch as it was. *)
Theorem sentMail_advances_when_it_returns (self : t) (code : Z) (resp : string)
    (numOk : Z) (addresses : list PyObj) (log : PyObj)
    (m : PyObj) (ms : list PyObj) (name : string) (ns : list string) :
  messages self = m :: ms → names self = name :: ns →
  let r := sentMail SUCCESS code resp numOk addresses log self in
  let on_disk := is_Some (files (world self) !! (name +:+ "-D")) ∧
                 is_Some (files (world self) !! (name +:+ "-H")) in
  (r.1 = Ok tt → messages r.2 = ms ∧ names r.2 = ns) ∧
  (code ∉ SUCCESS →
     r.1 = Ok tt ∧ messages r.2 = ms ∧ names r.2 = ns ∧ world r.2 = world self) ∧
  (code ∈ SUCCESS → on_disk → r.1 = Ok tt) ∧
  (code ∈ SUCCESS → ¬ on_disk →
     (r.1 = Raise (OSError (name +:+ "-D")) ∨ r.1 = Raise (OSError (name +:+ "-H"))) ∧
     messages r.2 = m :: ms ∧ names r.2 = name :: ns).
Proof.
  intros Hm Hn. cbv zeta.
  destruct (decide (code ∈ SUCCESS)) as [Hcode | Hcode].
  - rewrite (sentMail_success_code self code resp numOk addresses log name ns Hcode Hn).
    rewrite Hm.
    destruct (files (world self) !! (name +:+ "-D")) as [d |] eqn:HD;
      destruct (files (world self) !! (name +:+ "-H")) as [h |] eqn:HH; simpl.
    + split; [done | split; [done | split; [done |]]].
      intros _ Hno. destruct Hno. eauto.
    + split; [done | split; [done | split]].
      * by intros _ [_ [? ?]].
      * intros _ _. rewrite Hm, Hn. auto.
    + split; [done | split; [done | split]].
      * by intros _ [[? ?] _].
      * intros _ _. auto.
    + split; [done | split; [done | split]].
      * by intros _ [[? ?] _].
      * intros _ _. auto.
  - rewrite (sentMail_failure_code self code resp numOk addresses log m ms name ns
               Hcode Hm Hn). simpl.
    split; [done | split; [done | split; done]].
Qed.

Lemma sentMail_drained (self : t) code resp numOk addresses log :
  messages self = [] → names self = [] →
  sentMail SUCCESS code resp numOk addresses log self = (Raise IndexError, self).
Proof.
  destruct self as [msgs nms w]. simpl. intros -> ->.
  unfold sentMail. run_monad. simpl.
  by destruct (bool_decide (code ∈ SUCCESS)).
Qed.

(** C10: in the drained state, where both lists are empty, [sentMail]
    is no no-op: whatever the status code it does not return but raises
    [IndexError], and it leaves the agent and the world, with every
    file on disk, as they were. *)
Theorem sentMail_drained_raises (self : t) (code : Z) (resp : string)
    (numOk : Z) (addresses : list PyObj) (log : PyObj) :
  messages self = [] → names self = [] →
  let r := sentMail SUCCESS code resp numOk addresses log self in
  r.1 = Raise IndexError ∧ r.1 ≠ Ok tt ∧ r.2 = self ∧
  files (world r.2) = files (world self).
Proof.
  intros Hm Hn. cbv zeta.
  by rewrite (sentMail_drained self code resp numOk addresses log Hm Hn).
Qed.
End sentMail.

(** ** The relayer: the accessors *)

(** C5: with an empty batch the three accessors return [None]; with a
    batch whose front item is [[sender, recipient, data]] they return
    the sender, the one-element list of the recipient, and the data
    file object, which in an aligned agent is the open file object of
    the data artifact of the front key.  None of them changes the
    agent. *)
Theorem accessors_front_or_None (self : t) :
  (messages self = [] →
     getMailFrom self = (Ok PyNone, self) ∧
     getMailTo self = (Ok PyNone, self) ∧
     getMailData self = (Ok PyNone, self)) ∧
  (∀ (sender recipient data : PyObj) (rest : list PyObj),
     messages self = PyList [sender; recipient; data] :: rest →
     getMailFrom self = (Ok sender, self) ∧
     getMailTo self = (Ok (PyList [recipient]), self) ∧
     getMailData self = (Ok data, self)) ∧
  (∀ (sender recipient data : PyObj) (rest : list PyObj)
     (name : string) (ns : list string),
     messages self = PyList [sender; recipient; data] :: rest →
     names self = name :: ns → aligned self →
     ∃ fd : nat, data = PyFile fd ∧
       handles (world self) !! fd = Some (data_handle name)).
Proof.
  unfold getMailFrom, getMailTo, getMailData. run_monad.
  split; [| split].
  - by intros ->.
  - by intros sender recipient data rest ->.
  - intros sender recipient data rest name ns Hm Hn Hal.
    unfold aligned in Hal. rewrite Hm, Hn in Hal.
    apply Forall2_cons in Hal as [(contents & fd & Hitem & Hfd) _].
    injection Hitem as Hitem.
    change [sender; recipient; data] with ([sender; recipient] ++ [data]) in Hitem.
    apply app_inj_tail in Hitem as [_ ->]. by exists fd.
Qed.

(** ** The relayer: loading a batch *)

Lemma lookup_snoc_l {A} (l : list A) (x : A) : (l ++ [x]) !! length l = Some x.
Proof. by apply list_lookup_middle. Qed.

Lemma lookup_snoc2_r {A} (l : list A) (x y : A) :
  ((l ++ [x]) ++ [y]) !! S (length l) = Some y.
Proof.
  replace (S (length l)) with (length (l ++ [x])); [apply lookup_snoc_l |].
  rewrite length_app. simpl. lia.
Qed.

Lemma alter_snoc_l {A} (f : A → A) (l : list A) (x : A) :
  alter f (length l) (l ++ [x]) = l ++ [f x].
Proof. induction l as [| z l IH]; simpl; [done | by f_equal]. Qed.


Section loading.
Context `{Pickle}.


Lemma loadMessages_unfold (messagePaths : list string) (self : t) :
  loadMessages messagePaths self =
    for_ messagePaths load_one
      {| messages := []; names := []; world := world self |}.
Proof. reflexivity. Qed.

(** The five ways through the body of the loop. *)
Lemma load_one_run (message : string) (self : t) :
  let w := world self in
  let fd := length (handles w) in
  load_one message self =
    match files w !! (message +:+ "-H") with
    | None => (Raise (IOError (message +:+ "-H")), self)
    | Some data =>
        let w1 := set_handles (λ hs, hs ++ [header_handle message true]) w in
        match loads data with
        | None => (Raise UnpicklingError, set_world w1 self)
        | Some obj =>
            match files w !! (message +:+ "-D") with
            | None => (Raise (IOError (message +:+ "-D")), set_world w1 self)
            | Some _ =>
                let w2 := set_handles (λ hs, hs ++ [data_handle message]) w1 in
                match append obj (PyFile (S fd)) with
                | Raise e => (Raise e, set_world w2 self)
                | Ok item =>
                    (Ok tt, {| messages := messages self ++ [item];
                               names := names self ++ [message];
                               world := w2 |})
                end
            end
        end
    end.
Proof.
  destruct self as [msgs nms w]. cbv zeta. cbn [world].
  unfold load_one. run_monad. unfold open, new_handle. simpl.
  destruct (files w !! (message +:+ "-H")) as [data |] eqn:HH; [| done]. simpl.
  unfold try_finally, pickle_load. run_monad. unfold read, close. simpl.
  rewrite lookup_snoc_l. simpl. rewrite HH.
  unfold header_handle, data_handle.
  destruct (loads data) as [obj |]; simpl;
    unfold set_world, set_handles; simpl; rewrite ?alter_snoc_l; [| done].
  destruct (files w !! (message +:+ "-D")) as [d |] eqn:HD; [| done]. simpl.
  rewrite length_app, Nat.add_1_r. simpl.
  destruct (append obj (PyFile (S (length (handles w))))); simpl;
    by rewrite <- app_assoc.
Qed.
End loading.

(** ** The relayer: the two lists go together *)


Lemma item_of_more_handles (w w' : World) (more : list Handle) m name :
  handles w' = handles w ++ more → item_of w m name → item_of w' m name.
Proof.
  intros Hw' (contents & fd & -> & Hfd). exists contents, fd.
  split; [done |]. rewrite Hw'. by apply lookup_app_l_Some.
Qed.

Lemma aligned_more_handles (self self' : t) (more : list Handle) :
  messages self' = messages self → names self' = names self →
  handles (world self') = handles (world self) ++ more →
  aligned self → aligned self'.
Proof.
  unfold aligned. intros -> -> Hw' Hal.
  eapply Forall2_impl; [exact Hal |].
  intros m name. by apply item_of_more_handles with (more := more).
Qed.

Lemma aligned_lookup (self : t) :
  aligned self →
  length (messages self) = length (names self) ∧
  ∀ (i : nat) (m : PyObj), messages self !! i = Some m →
    ∃ name, names self !! i = Some name ∧ item_of (world self) m name.
Proof.
  intros Hal. split; [by eapply Forall2_length |].
  intros i m Hm. by eapply Forall2_lookup_l.
Qed.

Section invariant.
Context `{Pickle} (SUCCESS : gset Z).

Lemma load_one_aligned (message : string) (self : t) :
  aligned self → aligned (load_one message self).2.
Proof.
  intros Hal. rewrite load_one_run. cbv zeta.
  destruct (files (world self) !! (message +:+ "-H")) as [data |]; [| done].
  destruct (loads data) as [obj |].
  2:{ by apply (aligned_more_handles self _ [header_handle message true]). }
  destruct (files (world self) !! (message +:+ "-D")) as [d |].
  2:{ by apply (aligned_more_handles self _ [header_handle message true]). }
  destruct obj as [| s | items | fd]; simpl;
    try (apply (aligned_more_handles self _
                  [header_handle message true; data_handle message]);
         [done | done | simpl; by rewrite <- app_assoc | done]).
  unfold aligned. simpl. apply Forall2_app.
  - eapply Forall2_impl; [exact Hal |]. intros m name.
    apply item_of_more_handles
      with (more := [header_handle message true; data_handle message]).
    simpl. by rewrite <- app_assoc.
  - constructor; [| constructor].
    exists items, (S (length (handles (world self)))).
    split; [done |]. simpl. apply lookup_snoc2_r.
Qed.

Lemma for_load_one_aligned (messagePaths : list string) (self : t) :
  aligned self → aligned (for_ messagePaths load_one self).2.
Proof.
  revert self. induction messagePaths as [| message rest IH]; intros self Hal.
  - done.
  - simpl. unfold bind.
    pose proof (load_one_aligned message self Hal) as Hone.
    destruct (load_one message self) as [[[] | e] self']; simpl in *.
    + by apply IH.
    + done.
Qed.

Lemma sentMail_aligned (self : t) code resp numOk addresses log :
  aligned self → aligned (sentMail SUCCESS code resp numOk addresses log self).2.
Proof.
  intros Hal. pose proof Hal as Hal0. unfold aligned in Hal0.
  destruct (messages self) as [| m ms] eqn:Hm;
    destruct (names self) as [| name ns] eqn:Hn; try (by inversion Hal0).
  - by rewrite sentMail_drained.
  - apply Forall2_cons in Hal0 as [_ Hrest].
    destruct (decide (code ∈ SUCCESS)) as [Hcode | Hcode].
    + rewrite (sentMail_success_code SUCCESS self code resp numOk addresses log
                 name ns Hcode Hn).
      destruct (files (world self) !! (name +:+ "-D")); [| done].
      destruct (files (world self) !! (name +:+ "-H")).
      * rewrite Hm. exact Hrest.
      * apply (aligned_more_handles self _ []); try done.
        simpl. by rewrite app_nil_r.
    + rewrite (sentMail_failure_code SUCCESS self code resp numOk addresses log
                 m ms name ns Hcode Hm Hn).
      exact Hrest.
Qed.
End invariant.

Section batches.
Context `{Pickle} (SUCCESS : gset Z).

Lemma sentMail_Ok_drops (self : t) code resp numOk addresses log :
  aligned self →
  (sentMail SUCCESS code resp numOk addresses log self).1 = Ok tt →
  messages (sentMail SUCCESS code resp numOk addresses log self).2
    = drop 1 (messages self) ∧
  names (sentMail SUCCESS code resp numOk addresses log self).2
    = drop 1 (names self).
Proof.
  intros Hal. unfold aligned in Hal.
  destruct (messages self) as [| m ms] eqn:Hm;
    destruct (names self) as [| name ns] eqn:Hn; try (by inversion Hal).
  - by rewrite sentMail_drained.
  - destruct (decide (code ∈ SUCCESS)) as [Hcode | Hcode].
    + rewrite (sentMail_success_code SUCCESS self code resp numOk addresses log
                 name ns Hcode Hn).
      destruct (files (world self) !! (name +:+ "-D")); [| done].
      destruct (files (world self) !! (name +:+ "-H")); [| done].
      by rewrite Hm.
    + by rewrite (sentMail_failure_code SUCCESS self code resp numOk addresses log
                    m ms name ns Hcode Hm Hn).
Qed.

(** C9: [messages] and [names] have one length and are aligned index
    by index after [loadMessages], however it ends; [sentMail] keeps
    them so, however it ends, and when it returns it has dropped the
    front element of both. *)
Theorem messages_names_stay_aligned :
  (∀ (messagePaths : list string) (self : t),
     aligned (loadMessages messagePaths self).2) ∧
  (∀ (self : t) (code : Z) (resp : string) (numOk : Z)
     (addresses : list PyObj) (log : PyObj),
     aligned self →
     let r := sentMail SUCCESS code resp numOk addresses log self in
     aligned r.2 ∧
     (r.1 = Ok tt →
      messages r.2 = drop 1 (messages self) ∧ names r.2 = drop 1 (names self))) ∧
  (∀ self : t, aligned self →
     length (messages self) = length (names self) ∧
     ∀ (i : nat) (m : PyObj), messages self !! i = Some m →
       ∃ name : string, names self !! i = Some name ∧ item_of (world self) m name).
Proof.
  split; [| split].
  - intros messagePaths self. rewrite loadMessages_unfold.
    apply for_load_one_aligned. constructor.
  - intros self code resp numOk addresses log Hal. split.
    + by apply sentMail_aligned.
    + by apply sentMail_Ok_drops.
  - apply aligned_lookup.
Qed.

(** Loading never touches a file. *)
Lemma load_one_files (message : string) (self : t) :
  files (world (load_one message self).2) = files (world self).
Proof.
  rewrite load_one_run. cbv zeta.
  destruct (files (world self) !! (message +:+ "-H")) as [data |]; [| done].
  destruct (loads data) as [obj |]; [| done].
  destruct (files (world self) !! (message +:+ "-D")) as [d |]; [| done].
  by destruct (append obj _).
Qed.

Lemma load_one_missing_header (message : string) (self : t) :
  files (world self) !! (message +:+ "-H") = None →
  load_one message self = (Raise (IOError (message +:+ "-H")), self).
Proof. intros Hmiss. rewrite load_one_run. cbv zeta. by rewrite Hmiss. Qed.

Lemma for_load_one_missing (messagePaths : list string) (name : string) (self : t) :
  name ∈ messagePaths →
  files (world self) !! (name +:+ "-H") = None →
  ∃ e, (for_ messagePaths load_one self).1 = Raise e.
Proof.
  revert self. induction messagePaths as [| message rest IH]; intros self Hin Hmiss.
  - by apply elem_of_nil in Hin.
  - simpl. unfold bind.
    pose proof (load_one_files message self) as Hfiles.
    destruct (load_one message self) as [[[] | e] self'] eqn:Hone; simpl in *.
    + apply elem_of_cons in Hin as [-> | Hin].
      * rewrite load_one_missing_header in Hone by done. done.
      * apply IH; [done | by rewrite Hfiles].
    + by exists e.
Qed.

(** C8: once a delivery reported with a code in [smtp.SUCCESS] has
    returned, the two artifacts of its base key are gone, and a second
    attempt over that key does not pass silently: a new relayer built
    over a batch that starts with the key raises the [IOError] of the
    missing header, a new relayer built over any batch that holds the
    key raises, and a relayer that still has the key at its front
    raises the [OSError] of the missing data artifact when told of a
    success, keeping its state.  Both errors are storage failures. *)
Theorem second_delivery_fails (self : t) (code : Z) (resp : string)
    (numOk : Z) (addresses : list PyObj) (log : PyObj)
    (m : PyObj) (ms : list PyObj) (name : string) (ns : list string) :
  code ∈ SUCCESS → messages self = m :: ms → names self = name :: ns →
  let r := sentMail SUCCESS code resp numOk addresses log self in
  r.1 = Ok tt →
  (∀ rest : list string,
     (SMTPRelayer.__init__ (name :: rest) (world r.2)).1
       = Raise (IOError (name +:+ "-H")) ∧
     (ESMTPRelayer.__init__ (name :: rest) (world r.2)).1
       = Raise (IOError (name +:+ "-H"))) ∧
  (∀ messagePaths : list string, name ∈ messagePaths →
     ∃ e, (SMTPRelayer.__init__ messagePaths (world r.2)).1 = Raise e) ∧
  (∀ (other : t) (code' : Z) (resp' : string) (numOk' : Z)
     (addresses' : list PyObj) (log' : PyObj) (ns' : list string),
     code' ∈ SUCCESS → world other = world r.2 → names other = name :: ns' →
     sentMail SUCCESS code' resp' numOk' addresses' log' other
       = (Raise (OSError (name +:+ "-D")), other)) ∧
  StorageFailure (IOError (name +:+ "-H")) = true ∧
  StorageFailure (OSError (name +:+ "-D")) = true.
Proof.
  intros Hcode Hm Hn. cbv zeta.
  rewrite (sentMail_success_code SUCCESS self code resp numOk addresses log
             name ns Hcode Hn), Hm.
  destruct (files (world self) !! (name +:+ "-D")) as [d |] eqn:HD; [| done].
  destruct (files (world self) !! (name +:+ "-H")) as [h |] eqn:HH; [| done].
  simpl. intros _.
  set (w' := set_files (delete (name +:+ "-H"))
               (set_files (delete (name +:+ "-D")) (world self))).
  assert (files w' !! (name +:+ "-H") = None) as HnoH by apply lookup_delete_eq.
  assert (files w' !! (name +:+ "-D") = None) as HnoD.
  { simpl. rewrite lookup_delete_ne by apply suffix_H_D. apply lookup_delete_eq. }
  split; [| split; [| split; [| done]]].
  - intros rest. unfold SMTPRelayer.__init__, ESMTPRelayer.__init__.
    rewrite loadMessages_unfold. simpl. unfold bind.
    by rewrite load_one_missing_header.
  - intros messagePaths Hin. unfold SMTPRelayer.__init__.
    rewrite loadMessages_unfold. by apply for_load_one_missing with (name := name).
  - intros other code' resp' numOk' addresses' log' ns' Hcode' Hw Hn'.
    rewrite (sentMail_success_code SUCCESS other code' resp' numOk' addresses' log'
               name ns' Hcode' Hn').
    by rewrite Hw, HnoD.
Qed.
End batches.

(** ** From the acceptor to the relayer *)

Section round_trip.
Context `{Pickle}.

(** C6: when [startMessage] has room to write the envelope of a user,
    the header artifact of the new key holds the serialized list
    [[str(user.orig), str(user.dest)]], and a relayer built over that
    key loads exactly that pair, next to the file object of the data
    artifact: [getMailFrom] gives the sender back and [getMailTo] the
    one-element list of the recipient. *)
Theorem envelope_round_trip (self : DomainQueuer.t) (user : User) (w : World) :
  (String.length (envelope user) ≤ free_space w)%nat →
  let sender := str (orig user) in
  let recipient := str (dest user) in
  let key := allocate (queue (DomainQueuer.service self)) (files w) in
  let accepted := DomainQueuer.startMessage self user w in
  let agent := SMTPRelayer.__init__ [key] accepted.2 in
  (∃ sink, accepted.1 = Ok sink) ∧
  files accepted.2 !! (key +:+ "-H")
    = Some (dumps (PyList [PyStr sender; PyStr recipient])) ∧
  agent.1 = Ok tt ∧
  (∃ fp, messages agent.2 = [PyList [PyStr sender; PyStr recipient; PyFile fp]] ∧
         handles (world agent.2) !! fp = Some (data_handle key)) ∧
  names agent.2 = [key] ∧
  getMailFrom agent.2 = (Ok (PyStr sender), agent.2) ∧
  getMailTo agent.2 = (Ok (PyList [PyStr recipient]), agent.2).
Proof.
  intros Hroom. cbv zeta.
  pose proof (startMessage_run self user w) as (Hh & _ & Hrun). cbv zeta in Hh, Hrun.
  rewrite decide_True in Hrun by done. destruct Hrun as (Hr & Hf & _).
  set (key := allocate (queue (DomainQueuer.service self)) (files w)) in *.
  destruct (DomainQueuer.startMessage self user w) as [r w1]. simpl in *. subst r.
  assert (files w1 !! (key +:+ "-H") = Some (envelope user)) as HH.
  { rewrite Hf. apply lookup_insert_eq. }
  assert (files w1 !! (key +:+ "-D") = Some "") as HD.
  { rewrite Hf, lookup_insert_ne by apply suffix_H_D. apply lookup_insert_eq. }
  assert (loads (envelope user)
          = Some (PyList [PyStr (str (orig user)); PyStr (str (dest user))])) as Hloads.
  { apply (loads_dumps [str (orig user); str (dest user)]). }
  unfold SMTPRelayer.__init__. rewrite loadMessages_unfold. simpl. unfold bind.
  rewrite load_one_run. cbv zeta. simpl. rewrite HH, Hloads, HD. simpl.
  split; [eauto |]. split; [done |]. split; [done |].
  split; [| done].
  eexists. split; [done |]. simpl. apply lookup_snoc2_r.
Qed.
End round_trip.

(** * Further properties of the acceptor *)

Section acceptor_more.
Context `{Pickle}.

(** X1: a domain built with [AbstractRelayRules] relays for nobody:
    whatever the user, the connection and the authentication flag,
    [exists] raises [SMTPBadRcpt] and leaves the world as it was. *)
Theorem abstract_rules_reject_every_user (service : MailService)
    (authenticated : bool) (user : User) (w : World) :
  DomainQueuer.exists_
    (DomainQueuer.__init__ service authenticated (Some AbstractRelayRules.new))
    user w
  = (Raise (SMTPBadRcpt user), w).
Proof. reflexivity. Qed.

(** X2: a domain built without relay rules gets the default ones, and
    its [exists] hands out the factory exactly when the originator is
    authenticated or the peer is a UNIX-socket address or the loopback
    host, and both the sender and the recipient split on their first
    ['@'] into two non-empty parts. *)
Theorem default_domain_accepts_iff (service : MailService) (authenticated : bool)
    (user : User) (w : World) :
  let self := DomainQueuer.__init__ service authenticated None in
  let peer := getPeer (transport (protocol user)) in
  (DomainQueuer.exists_ self user w).1 = Ok (DomainQueuer.startMessage self user) ↔
    (authenticated = true ∨ (∃ name, peer = UNIXAddress name) ∨
     host peer = Some "127.0.0.1") ∧
    two_nonempty_parts (str (orig user)) ∧ two_nonempty_parts (str (dest user)).
Proof.
  cbv zeta. rewrite <- !split_two_nonempty_parts.
  unfold DomainQueuer.exists_, DomainQueuer.willRelay, DomainQueuer.__init__.
  cbn [DomainQueuer.relayRules DomainQueuer.authed rules_willRelay
       DomainQueuerRelayRules.new].
  unfold DomainQueuerRelayRules.willRelay.
  destruct user as [d o [[peer]]]. cbn [dest orig protocol transport getPeer str].
  set (no := length (filter_None (split1 (str o) "@"))).
  set (nd := length (filter_None (split1 (str d) "@"))).
  assert (Hpolicy :
    (if authenticated then true
     else if isinstance_UNIXAddress peer then true
     else bool_decide (host peer = Some "127.0.0.1")) = true ↔
    authenticated = true ∨ (∃ name, peer = UNIXAddress name) ∨
    host peer = Some "127.0.0.1").
  { destruct authenticated; [by split; auto |].
    destruct peer as [name | ty h p | ty h p]; simpl;
      rewrite ?bool_decide_eq_true.
    - split; eauto.
    - split; [auto | intros [? | [[? ?] | ?]]; done].
    - split; [auto | intros [? | [[? ?] | ?]]; done]. }
  rewrite <- Hpolicy.
  destruct (if authenticated then true
            else if isinstance_UNIXAddress peer then true
            else bool_decide (host peer = Some "127.0.0.1")); simpl.
  - destruct (bool_decide (no = 2%nat)) eqn:Ho; simpl.
    + destruct (bool_decide (nd = 2%nat)) eqn:Hd; simpl.
      * apply bool_decide_eq_true in Ho, Hd. by split.
      * apply bool_decide_eq_false in Hd. split; [done | by intros (_ & _ & ?)].
    + apply bool_decide_eq_false in Ho. split; [done | by intros (_ & ? & _)].
  - split; [done | by intros (? & _)].
Qed.

Lemma startMessage_frame (self : DomainQueuer.t) (user : User) (w : World) :
  let key := allocate (queue (DomainQueuer.service self)) (files w) in
  let r := DomainQueuer.startMessage self user w in
  (∀ path, path ≠ key +:+ "-H" → path ≠ key +:+ "-D" →
     files r.2 !! path = files w !! path) ∧
  (∀ path data, files w !! path = Some data → files r.2 !! path = Some data).
Proof.
  cbv zeta.
  pose proof (allocate_fresh (queue (DomainQueuer.service self)) (files w)) as [HH HD].
  pose proof (startMessage_run self user w) as (_ & _ & Hrun). cbv zeta in Hrun.
  assert (∀ path, path ≠ allocate (queue (DomainQueuer.service self)) (files w) +:+ "-H" →
            path ≠ allocate (queue (DomainQueuer.service self)) (files w) +:+ "-D" →
            files (DomainQueuer.startMessage self user w).2 !! path = files w !! path)
    as Hother.
  { intros path HnH HnD.
    case_decide; destruct Hrun as (_ & -> & _);
      by rewrite !lookup_insert_ne by done. }
  split; [exact Hother |].
  intros path data Hpath. rewrite Hother; [done | |]; intros ->; congruence.
Qed.

(** X3: [startMessage] writes under its new key only: on both of its
    exits every other path on disk holds what it held, so no file that
    was there is overwritten or removed; the file objects that were in
    the table are as they were; and exactly one event, the queued pair,
    is logged. *)
Theorem startMessage_touches_only_its_key (self : DomainQueuer.t) (user : User)
    (w : World) :
  let key := allocate (queue (DomainQueuer.service self)) (files w) in
  let r := DomainQueuer.startMessage self user w in
  (∀ path, path ≠ key +:+ "-H" → path ≠ key +:+ "-D" →
     files r.2 !! path = files w !! path) ∧
  (∀ path data, files w !! path = Some data → files r.2 !! path = Some data) ∧
  (∀ fd h, handles w !! fd = Some h → handles r.2 !! fd = Some h) ∧
  events r.2 = events w ++ [Queueing (str (orig user)) (str (dest user))].
Proof.
  cbv zeta.
  pose proof (startMessage_frame self user w) as [Hother Hkept].
  pose proof (startMessage_run self user w) as (Hh & He & _). cbv zeta in Hh, He.
  split; [exact Hother |]. split; [exact Hkept |]. split; [| exact He].
  intros fd h Hfd. rewrite Hh. by apply lookup_app_l_Some.
Qed.

(** X4: when the device has no room for the envelope, [startMessage]
    raises the [IOError] of the write and leaves what it had already
    created: an empty header artifact and an empty data artifact under
    the new key, and the file object of the data artifact, still
    open. *)
Theorem startMessage_failed_write_leaves_artifacts (self : DomainQueuer.t)
    (user : User) (w : World) :
  (free_space w < String.length (envelope user))%nat →
  let key := allocate (queue (DomainQueuer.service self)) (files w) in
  let r := DomainQueuer.startMessage self user w in
  r.1 = Raise (IOError (key +:+ "-H")) ∧
  files r.2 !! (key +:+ "-H") = Some "" ∧
  files r.2 !! (key +:+ "-D") = Some "" ∧
  handles r.2 !! S (length (handles w)) =
    Some {| h_path := key +:+ "-D"; h_mode := WriteMode; h_closed := false |} ∧
  free_space r.2 = free_space w.
Proof.
  intros Hfull. cbv zeta.
  pose proof (startMessage_run self user w) as (Hh & _ & Hrun). cbv zeta in Hh, Hrun.
  rewrite decide_False in Hrun by lia. destruct Hrun as (Hr & Hf & Hs).
  pose proof (suffix_H_D (allocate (queue (DomainQueuer.service self)) (files w))).
  rewrite Hh, Hf. split; [done |].
  split; [by rewrite lookup_insert_eq |].
  split; [by rewrite lookup_insert_ne, lookup_insert_eq |].
  split; [| done].
  replace (S (length (handles w))) with (length (handles w) + 1)%nat by lia.
  by rewrite lookup_app_r, Nat.add_comm, Nat.add_sub by lia.
Qed.

(** X5: two messages queued one after the other never share a base
    key, whichever domains queue them, and when the first envelope was
    written it is still in its header artifact after the second
    [startMessage], whether that one succeeds or not. *)
Theorem successive_messages_do_not_collide (self1 self2 : DomainQueuer.t)
    (user1 user2 : User) (w : World) :
  let key1 := allocate (queue (DomainQueuer.service self1)) (files w) in
  let r1 := DomainQueuer.startMessage self1 user1 w in
  let key2 := allocate (queue (DomainQueuer.service self2)) (files r1.2) in
  let r2 := DomainQueuer.startMessage self2 user2 r1.2 in
  key2 ≠ key1 ∧
  ((String.length (envelope user1) ≤ free_space w)%nat →
   files r2.2 !! (key1 +:+ "-H") = Some (envelope user1)).
Proof.
  cbv zeta.
  pose proof (startMessage_run self1 user1 w) as (_ & _ & Hrun). cbv zeta in Hrun.
  pose proof (allocate_fresh (queue (DomainQueuer.service self2))
                (files (DomainQueuer.startMessage self1 user1 w).2)) as [Hfresh _].
  pose proof (startMessage_frame self2 user2 (DomainQueuer.startMessage self1 user1 w).2)
    as [_ Hkept].
  split.
  - intros Heq. rewrite Heq in Hfresh.
    case_decide; destruct Hrun as (_ & Hf & _); rewrite Hf in Hfresh;
      by rewrite lookup_insert_eq in Hfresh.
  - intros Hroom. apply Hkept.
    rewrite decide_True in Hrun by done. destruct Hrun as (_ & -> & _).
    apply lookup_insert_eq.
Qed.
End acceptor_more.

(** * Further properties of loading *)

(** The base key [path] can be loaded from the files [fs] as [items]:
    its header artifact is there and unpickles to the list [items], and
    its data artifact is there. *)
Definition loadable `{Pickle} (fs : gmap string string) (path : string)
    (items : list PyObj) : Prop :=
  ∃ data : string,
    fs !! (path +:+ "-H") = Some data ∧
    loads data = Some (PyList items) ∧
    is_Some (fs !! (path +:+ "-D")).

(** The items a relayer holds after loading headers that unpickle to
    [itemss], when the table held [base] file objects before: each
    header takes one file object and each data artifact the next. *)
Fixpoint loaded_items (base : nat) (itemss : list (list PyObj)) : list PyObj :=
  match itemss with
  | [] => []
  | items :: rest =>
      PyList (items ++ [PyFile (S base)]) :: loaded_items (S (S base)) rest
  end.

(** The file objects loading [paths] adds to the table. *)
Fixpoint loaded_handles (paths : list string) : list Handle :=
  match paths with
  | [] => []
  | path :: rest =>
      header_handle path true :: data_handle path :: loaded_handles rest
  end.

(** A file object that loading the key [path] may leave behind. *)
Definition left_by (path : string) (h : Handle) : Prop :=
  h = header_handle path true ∨ h = data_handle path.

Lemma set_handles_nil (w : World) : set_handles (λ hs, hs ++ []) w = w.
Proof. destruct w. unfold set_handles. simpl. by rewrite app_nil_r. Qed.

Lemma set_handles_app (w : World) (l1 l2 : list Handle) :
  set_handles (λ hs, hs ++ l2) (set_handles (λ hs, hs ++ l1) w)
  = set_handles (λ hs, hs ++ (l1 ++ l2)) w.
Proof. unfold set_handles. simpl. by rewrite app_assoc. Qed.


Section loading_more.
Context `{Pickle}.

Lemma load_one_loadable (message : string) (items : list PyObj) (self : t) :
  loadable (files (world self)) message items →
  load_one message self =
    (Ok tt,
     {| messages := messages self ++
          [PyList (items ++ [PyFile (S (length (handles (world self))))])];
        names := names self ++ [message];
        world := set_handles
          (λ hs, hs ++ [header_handle message true; data_handle message])
          (world self) |}).
Proof.
  intros (data & HH & Hloads & [d HD]).
  rewrite load_one_run. cbv zeta. rewrite HH, Hloads, HD. simpl.
  by rewrite set_handles_app.
Qed.

Lemma load_one_Ok (message : string) (self : t) :
  (load_one message self).1 = Ok tt →
  ∃ items, loadable (files (world self)) message items.
Proof.
  rewrite load_one_run. cbv zeta.
  destruct (files (world self) !! (message +:+ "-H")) as [data |] eqn:HH; [| done].
  destruct (loads data) as [obj |] eqn:Hloads; [| done].
  destruct (files (world self) !! (message +:+ "-D")) as [d |] eqn:HD; [| done].
  destruct obj as [| s | items | fd]; try done.
  intros _. exists items, data. eauto.
Qed.

(** What the body of the loop may do to the agent, on every way
    through it. *)
Lemma load_one_shape (message : string) (self : t) :
  ∃ new : list Handle,
    world (load_one message self).2
      = set_handles (λ hs, hs ++ new) (world self) ∧
    Forall (left_by message) new ∧
    (((load_one message self).1 = Ok tt ∧
      names (load_one message self).2 = names self ++ [message] ∧
      ∃ item, messages (load_one message self).2 = messages self ++ [item]) ∨
     (∃ e, (load_one message self).1 = Raise e ∧
      names (load_one message self).2 = names self ∧
      messages (load_one message self).2 = messages self)).
Proof.
  rewrite load_one_run. cbv zeta. unfold left_by.
  destruct (files (world self) !! (message +:+ "-H")) as [data |].
  2:{ exists []. rewrite set_handles_nil.
      split; [done |]. split; [constructor |]. right. by eexists. }
  destruct (loads data) as [obj |].
  2:{ exists [header_handle message true]. simpl.
      split; [done |]. split; [constructor; [by left | constructor] |]. right. by eexists. }
  destruct (files (world self) !! (message +:+ "-D")) as [d |].
  2:{ exists [header_handle message true]. simpl.
      split; [done |]. split; [constructor; [by left | constructor] |]. right. by eexists. }
  exists [header_handle message true; data_handle message].
  split; [by destruct obj; simpl; rewrite set_handles_app |].
  split; [constructor; [by left | constructor; [by right | constructor]] |].
  destruct obj; simpl; try (right; by eexists).
  left. split; [done |]. split; [done |]. by eexists.
Qed.

Lemma for_load_one_shape (messagePaths : list string) (self : t) :
  ∃ (new : list Handle) (loaded : list string),
    world (for_ messagePaths load_one self).2
      = set_handles (λ hs, hs ++ new) (world self) ∧
    Forall (λ h, ∃ path, path ∈ messagePaths ∧ left_by path h) new ∧
    names (for_ messagePaths load_one self).2 = names self ++ loaded ∧
    length (messages (for_ messagePaths load_one self).2)
      = (length (messages self) + length loaded)%nat ∧
    loaded `prefix_of` messagePaths ∧
    ((for_ messagePaths load_one self).1 = Ok tt → loaded = messagePaths) ∧
    (∀ e, (for_ messagePaths load_one self).1 = Raise e →
       (length loaded < length messagePaths)%nat).
Proof.
  revert self. induction messagePaths as [| message rest IH]; intros self.
  - exists [], []. simpl. rewrite set_handles_nil, !app_nil_r.
    repeat split; try done.
  - simpl. unfold bind.
    destruct (load_one_shape message self) as (new1 & Hw1 & Hnew1 & Hcase).
    destruct (load_one message self) as [[[] | e] self1] eqn:Hone; simpl in *.
    + destruct Hcase as [(_ & Hn1 & item & Hm1) | (e & He & _)]; [| done].
      destruct (IH self1) as (new & loaded & Hw & Hnew & Hn & Hm & Hpre & HOk & HRaise).
      exists (new1 ++ new), (message :: loaded).
      split; [by rewrite Hw, Hw1, set_handles_app |].
      split.
      { apply Forall_app. split.
        - eapply Forall_impl; [exact Hnew1 |]. intros h Hh.
          exists message. split; [by left | done].
        - eapply Forall_impl; [exact Hnew |]. intros h (path & Hin & Hh).
          exists path. split; [by right | done]. }
      split; [by rewrite Hn, Hn1, <- app_assoc |].
      split; [rewrite Hm, Hm1, length_app; simpl; lia |].
      split; [by apply prefix_cons |].
      split; [intros HOk'; by rewrite (HOk HOk') |].
      intros e He. specialize (HRaise e He). simpl. lia.
    + destruct Hcase as [(? & _) | (e' & _ & Hn1 & Hm1)]; [done |].
      exists new1, [].
      split; [done |].
      split.
      { eapply Forall_impl; [exact Hnew1 |]. intros h Hh.
        exists message. split; [by left | done]. }
      split; [by rewrite app_nil_r |].
      split; [rewrite Hm1; simpl; lia |].
      split; [apply prefix_nil |].
      split; [done |].
      intros ? _. simpl. lia.
Qed.

Lemma for_load_one_loadable (messagePaths : list string)
    (itemss : list (list PyObj)) (self : t) :
  Forall2 (loadable (files (world self))) messagePaths itemss →
  for_ messagePaths load_one self =
    (Ok tt,
     {| messages := messages self ++
          loaded_items (length (handles (world self))) itemss;
        names := names self ++ messagePaths;
        world := set_handles (λ hs, hs ++ loaded_handles messagePaths)
                   (world self) |}).
Proof.
  revert itemss self.
  induction messagePaths as [| message rest IH]; intros itemss self Hall.
  - apply Forall2_nil_inv_l in Hall as ->. simpl.
    rewrite set_handles_nil, !app_nil_r. by destruct self.
  - apply Forall2_cons_inv_l in Hall as (items & itemss' & Hone & Hrest & ->).
    simpl. unfold bind. rewrite (load_one_loadable message items self Hone).
    rewrite (IH itemss'); [| exact Hrest]. simpl.
    rewrite set_handles_app, <- !app_assoc, length_app. simpl.
    by rewrite Nat.add_comm.
Qed.

Lemma for_load_one_Ok (messagePaths : list string) (self : t) :
  (for_ messagePaths load_one self).1 = Ok tt →
  ∃ itemss, Forall2 (loadable (files (world self))) messagePaths itemss.
Proof.
  revert self. induction messagePaths as [| message rest IH]; intros self.
  - intros _. exists []. constructor.
  - simpl. unfold bind.
    pose proof (load_one_Ok message self) as Hone.
    pose proof (load_one_files message self) as Hfiles.
    destruct (load_one message self) as [[[] | e] self1]; simpl in *; [| done].
    intros HOk. destruct (Hone eq_refl) as [items Hitems].
    destruct (IH self1 HOk) as [itemss Hitemss]. rewrite Hfiles in Hitemss.
    exists (items :: itemss). by constructor.
Qed.

(** X6: [loadMessages] reads and never writes: however it ends, every
    file on disk, the free space and the log are what they were, and
    the file objects that were in the table are untouched. *)
Theorem loadMessages_leaves_the_disk (messagePaths : list string) (self : t) :
  let r := loadMessages messagePaths self in
  files (world r.2) = files (world self) ∧
  free_space (world r.2) = free_space (world self) ∧
  events (world r.2) = events (world self) ∧
  ∀ fd h, handles (world self) !! fd = Some h →
          handles (world r.2) !! fd = Some h.
Proof.
  cbv zeta. rewrite loadMessages_unfold.
  destruct (for_load_one_shape messagePaths
              {| messages := []; names := []; world := world self |})
    as (new & loaded & Hw & _).
  rewrite Hw. simpl. repeat split.
  intros fd h Hfd. by apply lookup_app_l_Some.
Qed.

(** X7: [loadMessages] takes the keys in the order given and stops at
    the first it cannot load: however it ends, [names] is a prefix of
    [messagePaths] and [messages] is as long; when it returns, [names]
    is [messagePaths]; when it raises, at least one key is left out. *)
Theorem loadMessages_loads_a_prefix (messagePaths : list string) (self : t) :
  let r := loadMessages messagePaths self in
  names r.2 `prefix_of` messagePaths ∧
  length (messages r.2) = length (names r.2) ∧
  (r.1 = Ok tt → names r.2 = messagePaths) ∧
  (∀ e, r.1 = Raise e → (length (names r.2) < length messagePaths)%nat).
Proof.
  cbv zeta. rewrite loadMessages_unfold.
  destruct (for_load_one_shape messagePaths
              {| messages := []; names := []; world := world self |})
    as (new & loaded & _ & _ & Hn & Hm & Hpre & HOk & HRaise).
  simpl in Hn, Hm. rewrite Hn, Hm. auto.
Qed.

(** X8: the file objects [loadMessages] adds to the table, however it
    ends, are closed header file objects and open data file objects of
    keys of the batch: no header is left open, and no data file object
    is ever closed. *)
Theorem loadMessages_closes_headers_only (messagePaths : list string) (self : t) :
  ∃ new : list Handle,
    handles (world (loadMessages messagePaths self).2)
      = handles (world self) ++ new ∧
    Forall (λ h, ∃ path, path ∈ messagePaths ∧
                 (h = header_handle path true ∨ h = data_handle path)) new.
Proof.
  rewrite loadMessages_unfold.
  destruct (for_load_one_shape messagePaths
              {| messages := []; names := []; world := world self |})
    as (new & loaded & Hw & Hnew & _).
  exists new. rewrite Hw. done.
Qed.

(** X9: [loadMessages] returns exactly when every key of the batch has
    a header artifact that unpickles to a list and a data artifact; and
    then the agent holds, in the order of the keys, each unpickled list
    followed by the file object of its data artifact, the keys as
    [names], and two more file objects per key in the table, the header
    closed and the data left open. *)
Theorem loadMessages_returns_iff_loadable (messagePaths : list string) (self : t) :
  ((loadMessages messagePaths self).1 = Ok tt ↔
   ∃ itemss, Forall2 (loadable (files (world self))) messagePaths itemss) ∧
  (∀ itemss, Forall2 (loadable (files (world self))) messagePaths itemss →
     loadMessages messagePaths self =
       (Ok tt,
        {| messages := loaded_items (length (handles (world self))) itemss;
           names := messagePaths;
           world := set_handles (λ hs, hs ++ loaded_handles messagePaths)
                      (world self) |})).
Proof.
  rewrite loadMessages_unfold.
  set (fresh := {| messages := []; names := []; world := world self |}).
  split; [split |].
  - intros HOk. apply (for_load_one_Ok messagePaths fresh HOk).
  - intros [itemss Hall]. by rewrite (for_load_one_loadable _ itemss fresh Hall).
  - intros itemss Hall. by rewrite (for_load_one_loadable _ itemss fresh Hall).
Qed.

End loading_more.

(** * Further properties of reporting *)

(** One report of the client: the arguments of one call of [sentMail]. *)
Definition Report : Type := Z * string * Z * list PyObj * PyObj.

Definition report_code (report : Report) : Z := report.1.1.1.1.

(** The client reporting one delivery after the other to the agent. *)
Definition sentMails (SUCCESS : gset Z) (reports : list Report) : M t unit :=
  for_ reports (λ '(code, resp, numOk, addresses, log),
    sentMail SUCCESS code resp numOk addresses log).

Section reporting_more.
Context (SUCCESS : gset Z).




(** X12: [sentMail] is not atomic: with a code in [smtp.SUCCESS], when
    the data artifact of the front key is on disk and its header is
    not, the data artifact is removed, the [OSError] of the header is
    raised, and the item stays at the front of the batch. *)
Theorem sentMail_missing_header_loses_data (self : t) (code : Z) (resp : string)
    (numOk : Z) (addresses : list PyObj) (log : PyObj)
    (name : string) (ns : list string) :
  code ∈ SUCCESS → names self = name :: ns →
  is_Some (files (world self) !! (name +:+ "-D")) →
  files (world self) !! (name +:+ "-H") = None →
  let r := sentMail SUCCESS code resp numOk addresses log self in
  r.1 = Raise (OSError (name +:+ "-H")) ∧
  files (world r.2) !! (name +:+ "-D") = None ∧
  messages r.2 = messages self ∧ names r.2 = names self.
Proof.
  intros Hcode Hn [d HD] HH. cbv zeta.
  rewrite (sentMail_success_code SUCCESS self code resp numOk addresses log
             name ns Hcode Hn), HD, HH. simpl.
  split; [done |]. split; [apply lookup_delete_eq | done].
Qed.

Lemma sentMails_failures (reports : list Report) (self : t) :
  length (messages self) = length (names self) →
  Forall (λ report, report_code report ∉ SUCCESS) reports →
  sentMails SUCCESS reports self =
    if decide (length reports ≤ length (messages self))%nat then
      (Ok tt, {| messages := drop (length reports) (messages self);
                 names := drop (length reports) (names self);
                 world := world self |})
    else
      (Raise IndexError, {| messages := []; names := []; world := world self |}).
Proof.
  unfold sentMails. revert self.
  induction reports as [| [[[[code resp] numOk] addresses] log] reports IH];
    intros self Hlen Hcodes.
  - cbn [for_ length]. destruct (decide _) as [_ | Hno]; [by destruct self | lia].
  - apply Forall_cons in Hcodes as [Hcode Hcodes]. simpl in Hcode.
    cbn [for_]. unfold bind.
    destruct (messages self) as [| m ms] eqn:Hm;
      destruct (names self) as [| name ns] eqn:Hn; try done.
    + rewrite (sentMail_drained SUCCESS self code resp numOk addresses log Hm Hn).
      rewrite decide_False by (simpl; lia).
      destruct self; simpl in *; by subst.
    + rewrite (sentMail_failure_code SUCCESS self code resp numOk addresses log
                 m ms name ns Hcode Hm Hn).
      rewrite IH; [| simpl in *; lia | done]. simpl.
      destruct (decide (length reports ≤ length ms)%nat);
        [rewrite decide_True by lia | rewrite decide_False by lia]; done.
Qed.

(** X13: failed deliveries are worked off in order and cost nothing on
    disk: on an agent whose two lists have one length, reporting
    [n] codes outside [smtp.SUCCESS] one after the other returns when
    the batch holds at least [n] items, leaves the batch without its
    first [n] items and the world as it was; and when the batch holds
    fewer, the report after the last item raises [IndexError] on the
    emptied batch. *)
Theorem failed_deliveries_advance_in_order (reports : list Report) (self : t) :
  length (messages self) = length (names self) →
  Forall (λ report, report_code report ∉ SUCCESS) reports →
  let r := sentMails SUCCESS reports self in
  world r.2 = world self ∧
  ((length reports ≤ length (messages self))%nat →
     r.1 = Ok tt ∧
     messages r.2 = drop (length reports) (messages self) ∧
     names r.2 = drop (length reports) (names self)) ∧
  ((length (messages self) < length reports)%nat →
     r.1 = Raise IndexError ∧ messages r.2 = [] ∧ names r.2 = []).
Proof.
  intros Hlen Hcodes. cbv zeta. rewrite (sentMails_failures reports self Hlen Hcodes).
  case_decide; simpl; (split; [done |]); split; intros; (done || lia).
Qed.
End reporting_more.

Lemma append_same_length (s1 s2 a b : string) :
  String.length s1 = String.length s2 →
  s1 +:+ a = s2 +:+ b → s1 = s2 ∧ a = b.
Proof.
  revert s2. induction s1 as [| c s1 IH]; intros [| c' s2] Hlen Heq; try done.
  rewrite !Example.append_cons in Heq. injection Heq as -> Heq.
  destruct (IH s2) as [-> ->]; [by injection Hlen | done | done].
Qed.

Lemma artifact_paths_apart (name1 name2 : string) :
  name1 ≠ name2 →
  name1 +:+ "-D" ≠ name2 +:+ "-D" ∧ name1 +:+ "-D" ≠ name2 +:+ "-H" ∧
  name1 +:+ "-H" ≠ name2 +:+ "-D" ∧ name1 +:+ "-H" ≠ name2 +:+ "-H".
Proof.
  intros Hne.
  assert (∀ a b : string, String.length a = String.length b →
            name1 +:+ a ≠ name2 +:+ b) as Hapart.
  { intros a b Hab Heq. apply Hne.
    apply (append_same_length name1 name2 a b); [| done].
    apply (f_equal String.length) in Heq.
    rewrite !Example.length_append in Heq. lia. }
  repeat split; by apply Hapart.
Qed.

Section delivering_more.
Context (SUCCESS : gset Z).

(** The two artifacts of [name] are on disk. *)
Definition on_disk (w : World) (name : string) : Prop :=
  is_Some (files w !! (name +:+ "-D")) ∧ is_Some (files w !! (name +:+ "-H")).

(** X14: delivering a whole batch of distinct keys empties the queue of
    them and of nothing else: on an agent whose keys are pairwise
    distinct and have both artifacts on disk, reporting one code in
    [smtp.SUCCESS] per item returns, leaves the batch empty, leaves
    neither artifact of any key of the batch on disk, and leaves every
    other path with what it held. *)
Theorem successful_deliveries_remove_the_batch (reports : list Report) (self : t) :
  NoDup (names self) →
  length (messages self) = length (names self) →
  Forall (on_disk (world self)) (names self) →
  Forall (λ report, report_code report ∈ SUCCESS) reports →
  length reports = length (names self) →
  let r := sentMails SUCCESS reports self in
  r.1 = Ok tt ∧ messages r.2 = [] ∧ names r.2 = [] ∧
  (∀ name, name ∈ names self →
     files (world r.2) !! (name +:+ "-D") = None ∧
     files (world r.2) !! (name +:+ "-H") = None) ∧
  (∀ path, (∀ name, name ∈ names self →
              path ≠ name +:+ "-D" ∧ path ≠ name +:+ "-H") →
     files (world r.2) !! path = files (world self) !! path).
Proof.
  cbv zeta. unfold sentMails. revert self.
  induction reports as [| [[[[code resp] numOk] addresses] log] reports IH];
    intros self Hnodup Hlen Hdisk Hcodes Hn.
  - destruct (names self) as [| ? ?] eqn:Hnames; [| done].
    destruct (messages self) as [| ? ?] eqn:Hmessages; [| done].
    cbn [for_]. unfold ret. simpl. rewrite Hnames, Hmessages.
    split; [done |]. split; [done |]. split; [done |].
    split; [| done]. intros name Hin. by apply elem_of_nil in Hin.
  - destruct (names self) as [| name ns] eqn:Hnames; [done |].
    destruct (messages self) as [| m ms] eqn:Hmessages; [done |].
    apply Forall_cons in Hcodes as [Hcode Hcodes]. simpl in Hcode.
    apply Forall_cons in Hdisk as [[[d HD] [h HH]] Hdisk].
    apply NoDup_cons in Hnodup as [Hfresh Hnodup].
    cbn [for_]. unfold bind.
    rewrite (sentMail_success_code SUCCESS self code resp numOk addresses log
               name ns Hcode Hnames), HD, HH, Hmessages. cbv zeta.
    set (self1 := {| messages := ms; names := ns;
                     world := set_files (delete (name +:+ "-H"))
                                (set_files (delete (name +:+ "-D")) (world self)) |}).
    assert (∀ name', name' ∈ ns → ∀ path,
              path = name' +:+ "-D" ∨ path = name' +:+ "-H" →
              files (world self1) !! path = files (world self) !! path) as Hkept.
    { intros name' Hin path Hpath.
      assert (name' ≠ name) as Hne by (intros ->; done).
      destruct (artifact_paths_apart name' name Hne) as (? & ? & ? & ?).
      simpl. by destruct Hpath as [-> | ->]; rewrite !lookup_delete_ne. }
    destruct (IH self1) as (HOk & Hms & Hns & Hgone & Hother).
    { done. }
    { simpl in *. lia. }
    { simpl. apply Forall_forall. intros name' Hin.
      rewrite Forall_forall in Hdisk. destruct (Hdisk name' Hin) as [HD' HH'].
      split; rewrite (Hkept name' Hin); auto. }
    { done. }
    { simpl in *. lia. }
    split; [done |]. split; [done |]. split; [done |]. split.
    + intros name' Hin. apply elem_of_cons in Hin as [-> | Hin].
      * assert (∀ path, path = name +:+ "-D" ∨ path = name +:+ "-H" →
                  files (world (for_ reports
                    (λ '(code, resp, numOk, addresses, log),
                       sentMail SUCCESS code resp numOk addresses log) self1).2)
                    !! path = None) as Hfront.
        { intros path Hpath. rewrite Hother.
          - simpl. destruct Hpath as [-> | ->].
            + rewrite lookup_delete_ne by apply suffix_H_D. apply lookup_delete_eq.
            + apply lookup_delete_eq.
          - intros name' Hin. simpl in Hin.
            assert (name ≠ name') as Hne by (intros ->; done).
            destruct (artifact_paths_apart name name' Hne) as (? & ? & ? & ?).
            by destruct Hpath as [-> | ->]. }
        split; apply Hfront; auto.
      * by apply Hgone.
    + intros path Hpath. rewrite Hother.
      * simpl. destruct (Hpath name) as [? ?]; [by left |].
        by rewrite !lookup_delete_ne.
      * intros name' Hin. apply Hpath. by right.
Qed.
End delivering_more.

Section life_of_a_message.
Context `{Pickle} (SUCCESS : gset Z).

Lemma loaded_items_length (base : nat) (itemss : list (list PyObj)) :
  length (loaded_items base itemss) = length itemss.
Proof.
  revert base. induction itemss as [| items itemss IH]; intros base; simpl;
    [done | by rewrite IH].
Qed.

(** X15: a batch whose deliveries all failed can be tried again: after
    a relayer built over keys that can be loaded has been told one code
    outside [smtp.SUCCESS] per item, its batch is empty, and a new
    relayer built over the same keys in the world it leaves loads the
    same lists again, in the same order, each with a new data file
    object. *)
Theorem failed_batch_can_be_retried (w : World) (messagePaths : list string)
    (itemss : list (list PyObj)) (reports : list Report) :
  Forall2 (loadable (files w)) messagePaths itemss →
  Forall (λ report, report_code report ∉ SUCCESS) reports →
  length reports = length messagePaths →
  let first := SMTPRelayer.__init__ messagePaths w in
  let r := sentMails SUCCESS reports first.2 in
  let again := SMTPRelayer.__init__ messagePaths (world r.2) in
  first.1 = Ok tt ∧
  messages first.2 = loaded_items (length (handles w)) itemss ∧
  r.1 = Ok tt ∧ messages r.2 = [] ∧ names r.2 = [] ∧
  again.1 = Ok tt ∧ names again.2 = messagePaths ∧
  messages again.2 = loaded_items (length (handles (world r.2))) itemss.
Proof.
  intros Hall Hcodes Hn. cbv zeta. unfold SMTPRelayer.__init__.
  assert (∀ w' : World, files w' = files w →
            loadMessages messagePaths {| messages := []; names := []; world := w' |}
            = (Ok tt,
               {| messages := loaded_items (length (handles w')) itemss;
                  names := messagePaths;
                  world := set_handles (λ hs, hs ++ loaded_handles messagePaths) w' |}))
    as Hloads.
  { intros w' Hfiles. rewrite loadMessages_unfold. cbn [world].
    rewrite (for_load_one_loadable messagePaths itemss); [done |].
    cbn [world]. by rewrite Hfiles. }
  rewrite (Hloads w eq_refl). cbn [fst snd].
  pose proof (Forall2_length _ _ _ Hall) as Hlen.
  rewrite sentMails_failures; [| simpl; by rewrite loaded_items_length | done].
  cbn [messages names world]. rewrite decide_True by (rewrite loaded_items_length; lia).
  cbn [fst snd messages names world].
  rewrite (Hloads (set_handles (λ hs, hs ++ loaded_handles messagePaths) w) eq_refl).
  cbn [fst snd messages names world].
  split; [done |]. split; [done |]. split; [done |].
  split; [apply drop_ge; rewrite loaded_items_length; lia |].
  split; [apply drop_ge; lia |]. done.
Qed.

(** X16: a message that is queued and then delivered leaves the disk as
    it found it: when [startMessage] has room to write the envelope and
    the relayer built over its key is told of a code in
    [smtp.SUCCESS], [sentMail] returns, the batch is empty, and the
    files on disk are those that were there before the message was
    queued. *)
Theorem queued_then_delivered_restores_the_files (self : DomainQueuer.t)
    (user : User) (w : World) (code : Z) (resp : string) (numOk : Z)
    (addresses : list PyObj) (log : PyObj) :
  (String.length (envelope user) ≤ free_space w)%nat →
  code ∈ SUCCESS →
  let key := allocate (queue (DomainQueuer.service self)) (files w) in
  let accepted := DomainQueuer.startMessage self user w in
  let agent := SMTPRelayer.__init__ [key] accepted.2 in
  let r := sentMail SUCCESS code resp numOk addresses log agent.2 in
  agent.1 = Ok tt ∧ r.1 = Ok tt ∧
  messages r.2 = [] ∧ names r.2 = [] ∧
  files (world r.2) = files w.
Proof.
  intros Hroom Hcode. cbv zeta.
  pose proof (allocate_fresh (queue (DomainQueuer.service self)) (files w)) as [HnoH HnoD].
  pose proof (startMessage_run self user w) as (_ & _ & Hrun). cbv zeta in Hrun.
  rewrite decide_True in Hrun by done. destruct Hrun as (_ & Hf & _).
  set (key := allocate (queue (DomainQueuer.service self)) (files w)) in *.
  destruct (DomainQueuer.startMessage self user w) as [o w1]. simpl in Hf. cbn [snd].
  assert (loadable (files w1) key [PyStr (str (orig user)); PyStr (str (dest user))])
    as Hload.
  { exists (envelope user). rewrite Hf. split; [apply lookup_insert_eq |].
    split; [apply (loads_dumps [str (orig user); str (dest user)]) |].
    rewrite lookup_insert_ne by apply suffix_H_D. rewrite lookup_insert_eq. eauto. }
  unfold SMTPRelayer.__init__. rewrite loadMessages_unfold.
  rewrite (for_load_one_loadable [key] [[PyStr (str (orig user)); PyStr (str (dest user))]]);
    [| by repeat constructor].
  cbn [fst snd messages names world app loaded_items].
  set (agent := {| messages := _; names := [key]; world := _ |}).
  rewrite (sentMail_success_code SUCCESS agent code resp numOk addresses log
             key [] Hcode eq_refl).
  subst agent.
  cbn [world messages files set_handles]. rewrite Hf.
  rewrite lookup_insert_ne by apply suffix_H_D. rewrite !lookup_insert_eq.
  cbv zeta. cbn [fst snd messages names world files set_files].
  split; [done |]. split; [done |]. split; [done |]. split; [done |].
  cbn [files set_handles]. rewrite Hf.
  rewrite delete_insert_ne by apply suffix_D_H.
  by rewrite (delete_insert_id (files w)), delete_insert_id.
Qed.

(** X17: [loadMessages] does not check what a header holds beyond its
    being a list.  A header that unpickles to the empty list gives an
    item that is the data file object alone: [getMailFrom] returns that
    file object and [getMailTo] and [getMailData] raise [IndexError].
    A header that unpickles to a one-element list gives an item whose
    second entry is the data file object: [getMailFrom] returns the one
    element, [getMailTo] the list of that file object, and
    [getMailData] raises [IndexError]. *)
Theorem short_headers_are_loaded_unchecked (w : World) (name : string) :
  let agent := SMTPRelayer.__init__ [name] w in
  let fp := PyFile (S (length (handles w))) in
  (loadable (files w) name [] →
     agent.1 = Ok tt ∧
     getMailFrom agent.2 = (Ok fp, agent.2) ∧
     getMailTo agent.2 = (Raise IndexError, agent.2) ∧
     getMailData agent.2 = (Raise IndexError, agent.2)) ∧
  (∀ x, loadable (files w) name [x] →
     agent.1 = Ok tt ∧
     getMailFrom agent.2 = (Ok x, agent.2) ∧
     getMailTo agent.2 = (Ok (PyList [fp]), agent.2) ∧
     getMailData agent.2 = (Raise IndexError, agent.2)).
Proof.
  cbv zeta. unfold SMTPRelayer.__init__. rewrite loadMessages_unfold.
  split.
  - intros Hload.
    rewrite (for_load_one_loadable [name] [[]]
               {| messages := []; names := []; world := w |});
      [done | by repeat constructor].
  - intros x Hload.
    rewrite (for_load_one_loadable [name] [[x]]
               {| messages := []; names := []; world := w |});
      [done | by repeat constructor].
Qed.
End life_of_a_message.

Section duplicate_keys.
Context `{Pickle} (SUCCESS : gset Z).

(** X18: a base key listed twice is loaded twice and then blocks the
    batch: a relayer built over [[name; name]], for a key that can be
    loaded, holds two items; the first report with a code in
    [smtp.SUCCESS] returns and removes the artifacts; the second one
    raises the [OSError] of the missing data artifact and leaves the
    agent exactly as it was, with the second item still at the front,
    so that repeating the report raises again. *)
Theorem duplicate_key_blocks_the_batch (w : World) (name : string)
    (items : list PyObj) (code1 code2 : Z) (resp1 resp2 : string)
    (numOk1 numOk2 : Z) (addresses1 addresses2 : list PyObj) (log1 log2 : PyObj) :
  loadable (files w) name items → code1 ∈ SUCCESS → code2 ∈ SUCCESS →
  let agent := SMTPRelayer.__init__ [name; name] w in
  let r1 := sentMail SUCCESS code1 resp1 numOk1 addresses1 log1 agent.2 in
  let r2 := sentMail SUCCESS code2 resp2 numOk2 addresses2 log2 r1.2 in
  agent.1 = Ok tt ∧
  messages agent.2 = loaded_items (length (handles w)) [items; items] ∧
  r1.1 = Ok tt ∧ names r1.2 = [name] ∧
  r2 = (Raise (OSError (name +:+ "-D")), r1.2).
Proof.
  intros Hload Hcode1 Hcode2. cbv zeta. unfold SMTPRelayer.__init__.
  rewrite loadMessages_unfold. cbn [world].
  rewrite (for_load_one_loadable [name; name] [items; items]);
    [| by repeat constructor].
  cbn [fst snd messages names world app].
  destruct Hload as (data & HH & _ & [d HD]).
  set (agent := {| messages := _; names := [name; name]; world := _ |}).
  rewrite (sentMail_success_code SUCCESS agent code1 resp1 numOk1 addresses1 log1
             name [name] Hcode1 eq_refl).
  subst agent. cbn [world messages files set_handles loaded_items].
  rewrite HD, HH. cbv zeta. cbn [fst snd names].
  set (agent1 := {| messages := _; names := [name]; world := _ |}).
  rewrite (sentMail_success_code SUCCESS agent1 code2 resp2 numOk2 addresses2 log2
             name [] Hcode2 eq_refl).
  subst agent1. cbn [world files set_files set_handles].
  rewrite lookup_delete_ne by apply suffix_H_D. by rewrite lookup_delete_eq.
Qed.
End duplicate_keys.

(** * The properties at concrete inputs *)

#[local] Existing Instance Example.pickle.

(** C1 at a loopback peer that is not authenticated. *)
Lemma willRelay_default_policy_witness :
  DomainQueuerRelayRules.willRelay (dest Example.user)
    (protocol Example.user) false = true.
Proof.
  destruct (willRelay_default_policy (dest Example.user) (protocol Example.user) false)
    as [[_ Hif] _].
  apply Hif. right. right. reflexivity.
Defined.

(** C2 where the policy permits and both addresses are well formed: the
    factory comes back, the world is untouched, and the factory run on
    an empty disk leaves the two artifacts of the key ["q"]. *)
Lemma exists_rejects_iff_witness :
  (DomainQueuer.exists_ Example.domain Example.user (Example.disk 64)).1
    ≠ Raise (SMTPBadRcpt Example.user) ∧
  (DomainQueuer.exists_ Example.domain Example.user (Example.disk 64)).2
    = Example.disk 64 ∧
  files Example.queued !! "q-H" = Some ";+a+@+x;+b+@+y." ∧
  files Example.queued !! "q-D" = Some "".
Proof.
  destruct (@exists_rejects_iff Example.pickle Example.domain Example.user
              (Example.disk 64)) as (Hiff & _ & _ & Hrun).
  split; [| split; [reflexivity |]].
  - intros Hraise. apply Hiff in Hraise as [Hdenied | [Hbad | Hbad]].
    + discriminate Hdenied.
    + apply Hbad. exists "a", "x". repeat split; discriminate.
    + apply Hbad. exists "b", "y". repeat split; discriminate.
  - destruct (Hrun (Example.disk 64)) as (_ & _ & _ & _ & HH & HD).
    + vm_compute. lia.
    + split; [exact HH | exact HD].
Defined.

(** C3 on the relayer loaded over ["q"], told of a 250. *)
Lemma sentMail_success_removes_both_witness :
  let r := sentMail Example.SUCCESS 250 "250 OK" 1 [PyStr "b@y"] PyNone
             Example.loaded in
  r.1 = Ok tt ∧
  files (world r.2) !! "q-D" = None ∧ files (world r.2) !! "q-H" = None.
Proof.
  destruct (sentMail_success_removes_both Example.SUCCESS Example.loaded
              250 "250 OK" 1 [PyStr "b@y"] PyNone
              (PyList [PyStr "a@x"; PyStr "b@y"; PyFile 3]) [] "q" [])
    as [Hreturns Hgone].
  - set_solver.
  - reflexivity.
  - reflexivity.
  - assert ((sentMail Example.SUCCESS 250 "250 OK" 1 [PyStr "b@y"] PyNone
               Example.loaded).1 = Ok tt) as HOk.
    { apply Hreturns; vm_compute; eauto. }
    destruct (Hgone HOk) as (_ & _ & HD & HH).
    split; [exact HOk | split; [exact HD | exact HH]].
Defined.

(** C4 does not hold as the claim has it.  A relayer whose front key is
    ["k"], on a disk without ["k-D"], is told of a 250: [os.remove]
    raises and both lists keep their front.  The same happens to the
    relayer loaded over [["q"; "q"]] on its second 250, the first
    having removed the artifacts of ["q"]. *)
Lemma sentMail_keeps_front_on_OSError :
  let item := λ fd, PyList [PyStr "a@x"; PyStr "b@y"; PyFile fd] in
  let bare := {| messages := [item 0%nat]; names := ["k"];
                 world := Example.disk 0 |} in
  let first := sentMail Example.SUCCESS 250 "250 OK" 1 [PyStr "b@y"] PyNone
                 Example.loaded_twice in
  let second := sentMail Example.SUCCESS 250 "250 OK" 1 [PyStr "b@y"] PyNone
                  first.2 in
  sentMail Example.SUCCESS 250 "250 OK" 1 [PyStr "b@y"] PyNone bare
    = (Raise (OSError "k-D"), bare) ∧
  messages Example.loaded_twice = [item 3%nat; item 5%nat] ∧
  names Example.loaded_twice = ["q"; "q"] ∧
  first.1 = Ok tt ∧ messages first.2 = [item 5%nat] ∧ names first.2 = ["q"] ∧
  second.1 = Raise (OSError "q-D") ∧
  messages second.2 = [item 5%nat] ∧ names second.2 = ["q"].
Proof. vm_compute. repeat split. Qed.

(** C4, as the code has it, on the relayer loaded over ["q"], told of a
    550: the batch is drained and the world is what it was. *)
Lemma sentMail_advances_when_it_returns_witness :
  let r := sentMail Example.SUCCESS 550 "550 no" 0 [] PyNone Example.loaded in
  r.1 = Ok tt ∧ messages r.2 = [] ∧ names r.2 = [] ∧
  world r.2 = world Example.loaded.
Proof.
  destruct (sentMail_advances_when_it_returns Example.SUCCESS Example.loaded
              550 "550 no" 0 [] PyNone
              (PyList [PyStr "a@x"; PyStr "b@y"; PyFile 3]) [] "q" [])
    as (_ & Hfailure & _ & _).
  - reflexivity.
  - reflexivity.
  - apply Hfailure. compute_done.
Defined.

(** C5 on the relayer loaded over ["q"]. *)
Lemma accessors_front_or_None_witness :
  getMailFrom Example.loaded = (Ok (PyStr "a@x"), Example.loaded) ∧
  getMailTo Example.loaded = (Ok (PyList [PyStr "b@y"]), Example.loaded) ∧
  getMailData Example.loaded = (Ok (PyFile 3), Example.loaded).
Proof.
  destruct (accessors_front_or_None Example.loaded) as (_ & Hfront & _).
  apply (Hfront (PyStr "a@x") (PyStr "b@y") (PyFile 3) []).
  reflexivity.
Defined.

(** C6 for the envelope of [Example.user] on an empty disk. *)
Lemma envelope_round_trip_witness :
  let agent := (SMTPRelayer.__init__ ["q"] Example.queued).2 in
  getMailFrom agent = (Ok (PyStr "a@x"), agent) ∧
  getMailTo agent = (Ok (PyList [PyStr "b@y"]), agent).
Proof.
  destruct (envelope_round_trip Example.domain Example.user (Example.disk 64))
    as (_ & _ & _ & _ & _ & Hfrom & Hto).
  - vm_compute. lia.
  - split; [exact Hfrom | exact Hto].
Defined.

(** C7 on a full disk: the write fails, the [IOError] comes out and the
    envelope file object, number 0, is closed. *)
Lemma startMessage_closes_envelopeFile_witness :
  (DomainQueuer.startMessage Example.domain Example.user (Example.disk 0)).1
    = Raise (IOError "q-H") ∧
  is_closed
    (DomainQueuer.startMessage Example.domain Example.user (Example.disk 0)).2
    0 = true.
Proof.
  destruct (startMessage_closes_envelopeFile Example.domain Example.user
              (Example.disk 0))
    as (envelopeFile & smtpMessage & Hcreated & _ & _ & _ & Hfull).
  injection Hcreated as <- <-.
  apply Hfull. vm_compute. lia.
Defined.

(** C8 after the relayer loaded over ["q"] was told of a 250. *)
Lemma second_delivery_fails_witness :
  let r := sentMail Example.SUCCESS 250 "250 OK" 1 [PyStr "b@y"] PyNone
             Example.loaded in
  (SMTPRelayer.__init__ ["q"] (world r.2)).1 = Raise (IOError "q-H").
Proof.
  destruct (second_delivery_fails Example.SUCCESS Example.loaded
              250 "250 OK" 1 [PyStr "b@y"] PyNone
              (PyList [PyStr "a@x"; PyStr "b@y"; PyFile 3]) [] "q" [])
    as (Hnew & _).
  - set_solver.
  - reflexivity.
  - reflexivity.
  - reflexivity.
  - apply (Hnew []).
Defined.

(** C9 on the relayer loaded over [["q"; "q"]]. *)
Lemma messages_names_stay_aligned_witness :
  length (messages Example.loaded_twice) = length (names Example.loaded_twice) ∧
  aligned (sentMail Example.SUCCESS 250 "250 OK" 1 [PyStr "b@y"] PyNone
             Example.loaded_twice).2.
Proof.
  destruct (messages_names_stay_aligned Example.SUCCESS)
    as (Hload & Hsent & Hlookup).
  pose proof (Hload ["q"; "q"]
                {| messages := []; names := []; world := Example.queued |}) as Hal.
  split.
  - apply (Hlookup _ Hal).
  - apply (Hsent _ 250%Z "250 OK" 1%Z [PyStr "b@y"] PyNone Hal).
Defined.

(** C10 on the relayer loaded over ["q"], once its one item is gone. *)
Lemma sentMail_drained_raises_witness :
  let drained := (sentMail Example.SUCCESS 550 "550 no" 0 [] PyNone
                    Example.loaded).2 in
  (sentMail Example.SUCCESS 250 "250 OK" 1 [] PyNone drained).1
    = Raise IndexError.
Proof.
  destruct (sentMail_drained_raises Example.SUCCESS
              (sentMail Example.SUCCESS 550 "550 no" 0 [] PyNone
                 Example.loaded).2
              250 "250 OK" 1 [] PyNone)
    as (Hraises & _).
  - reflexivity.
  - reflexivity.
  - exact Hraises.
Defined.

(** * The further properties at concrete inputs *)

Module Scenario.
(** The disk after two messages of [Example.user] were queued: the keys
    are ["q"] and ["qqqq"]. *)
Definition queued_twice : World :=
  (DomainQueuer.startMessage Example.domain Example.user Example.queued).2.

Definition loaded_both : RelayerMixin.t :=
  (SMTPRelayer.__init__ ["q"; "qqqq"] queued_twice).2.

(** A disk that holds the data artifact of ["k"] without its header, and
    a relayer that has ["k"] at its front. *)
Definition headless : RelayerMixin.t :=
  {| messages := [PyList [PyStr "a@x"; PyStr "b@y"; PyFile 0]];
     names := ["k"];
     world := {| files := {[ "k-D" := "body" ]}; handles := [data_handle "k"];
                 free_space := 0; events := [] |} |}.

(** A disk whose one header holds a list of one string. *)
Definition short_header : World :=
  {| files := {[ "k-H" := ";+a+@+x."; "k-D" := "body" ]}; handles := [];
     free_space := 0; events := [] |}.

Definition no : Report := (550%Z, "550 no", 0%Z, [], PyNone).
Definition yes : Report := (250%Z, "250 OK", 1%Z, [PyStr "b@y"], PyNone).
End Scenario.

Lemma queued_loadable :
  loadable (files Example.queued) "q" [PyStr "a@x"; PyStr "b@y"].
Proof. exists ";+a+@+x;+b+@+y.". vm_compute. eauto. Qed.

(** X4 on a full disk. *)
Lemma startMessage_failed_write_leaves_artifacts_witness :
  files (DomainQueuer.startMessage Example.domain Example.user (Example.disk 0)).2
    !! "q-H" = Some "" ∧
  files (DomainQueuer.startMessage Example.domain Example.user (Example.disk 0)).2
    !! "q-D" = Some "".
Proof.
  destruct (startMessage_failed_write_leaves_artifacts Example.domain Example.user
              (Example.disk 0)) as (_ & HH & HD & _).
  - vm_compute. lia.
  - split; [exact HH | exact HD].
Defined.


(** X12 on the relayer whose front key has lost its header. *)
Lemma sentMail_missing_header_loses_data_witness :
  let r := sentMail Example.SUCCESS 250 "250 OK" 1 [] PyNone Scenario.headless in
  r.1 = Raise (OSError "k-H") ∧ files (world r.2) !! "k-D" = None.
Proof.
  destruct (sentMail_missing_header_loses_data Example.SUCCESS Scenario.headless
              250 "250 OK" 1 [] PyNone "k" []) as (Hraises & Hgone & _).
  - set_solver.
  - reflexivity.
  - vm_compute. eauto.
  - reflexivity.
  - split; [exact Hraises | exact Hgone].
Defined.

(** X13 on the relayer loaded over [["q"; "q"]], told of two failures. *)
Lemma failed_deliveries_advance_in_order_witness :
  let r := sentMails Example.SUCCESS [Scenario.no; Scenario.no]
             Example.loaded_twice in
  r.1 = Ok tt ∧ messages r.2 = [] ∧ world r.2 = world Example.loaded_twice.
Proof.
  destruct (failed_deliveries_advance_in_order Example.SUCCESS
              [Scenario.no; Scenario.no] Example.loaded_twice)
    as (Hworld & Hfits & _).
  - reflexivity.
  - repeat constructor; compute_done.
  - destruct Hfits as (HOk & Hms & _); [vm_compute; lia |].
    split; [exact HOk | split; [exact Hms | exact Hworld]].
Defined.

Lemma loaded_both_names : names Scenario.loaded_both = ["q"; "qqqq"].
Proof. vm_compute. reflexivity. Qed.

(** X14 on the relayer loaded over the two queued keys. *)
Lemma successful_deliveries_remove_the_batch_witness :
  let r := sentMails Example.SUCCESS [Scenario.yes; Scenario.yes]
             Scenario.loaded_both in
  r.1 = Ok tt ∧ files (world r.2) !! "qqqq-H" = None.
Proof.
  destruct (successful_deliveries_remove_the_batch Example.SUCCESS
              [Scenario.yes; Scenario.yes] Scenario.loaded_both)
    as (HOk & _ & _ & Hgone & _).
  - rewrite loaded_both_names. apply (bool_decide_unpack _). vm_compute. exact I.
  - vm_compute. reflexivity.
  - rewrite loaded_both_names. repeat constructor; vm_compute; eauto.
  - repeat constructor; apply (bool_decide_unpack _); vm_compute; exact I.
  - vm_compute. reflexivity.
  - destruct (Hgone "qqqq") as [_ HH]; [rewrite loaded_both_names; repeat constructor |].
    split; [exact HOk | exact HH].
Defined.

(** X15 on the queued key ["q"]. *)
Lemma failed_batch_can_be_retried_witness :
  let first := SMTPRelayer.__init__ ["q"] Example.queued in
  let r := sentMails Example.SUCCESS [Scenario.no] first.2 in
  (SMTPRelayer.__init__ ["q"] (world r.2)).1 = Ok tt.
Proof.
  destruct (failed_batch_can_be_retried Example.SUCCESS Example.queued ["q"]
              [[PyStr "a@x"; PyStr "b@y"]] [Scenario.no])
    as (_ & _ & _ & _ & _ & Hagain & _).
  - constructor; [exact queued_loadable | constructor].
  - repeat constructor. compute_done.
  - reflexivity.
  - exact Hagain.
Defined.

(** X16 for the envelope of [Example.user] on an empty disk. *)
Lemma queued_then_delivered_restores_the_files_witness :
  let agent := SMTPRelayer.__init__ ["q"] Example.queued in
  files (world (sentMail Example.SUCCESS 250 "250 OK" 1 [] PyNone agent.2).2) = ∅.
Proof.
  destruct (queued_then_delivered_restores_the_files Example.SUCCESS
              Example.domain Example.user (Example.disk 64) 250 "250 OK" 1 [] PyNone)
    as (_ & _ & _ & _ & Hfiles).
  - vm_compute. lia.
  - set_solver.
  - exact Hfiles.
Defined.

(** X17 on a header that holds the one string ["a@x"]. *)
Lemma short_headers_are_loaded_unchecked_witness :
  let agent := SMTPRelayer.__init__ ["k"] Scenario.short_header in
  getMailTo agent.2 = (Ok (PyList [PyFile 1]), agent.2).
Proof.
  destruct (short_headers_are_loaded_unchecked Scenario.short_header "k")
    as [_ Hone].
  destruct (Hone (PyStr "a@x")) as (_ & _ & Hto & _).
  - exists ";+a+@+x.". vm_compute. eauto.
  - exact Hto.
Defined.

(** X18 on the queued key ["q"], listed twice. *)
Lemma duplicate_key_blocks_the_batch_witness :
  let agent := SMTPRelayer.__init__ ["q"; "q"] Example.queued in
  let r1 := sentMail Example.SUCCESS 250 "250 OK" 1 [] PyNone agent.2 in
  (sentMail Example.SUCCESS 250 "250 OK" 1 [] PyNone r1.2).1
    = Raise (OSError "q-D").
Proof.
  destruct (duplicate_key_blocks_the_batch Example.SUCCESS Example.queued "q"
              [PyStr "a@x"; PyStr "b@y"] 250 250 "250 OK" "250 OK" 1 1 [] []
              PyNone PyNone)
    as (_ & _ & _ & _ & Hsecond).
  - exact queued_loadable.
  - apply (bool_decide_unpack _). vm_compute. exact I.
  - apply (bool_decide_unpack _). vm_compute. exact I.
  - cbv zeta. by rewrite Hsecond.
Defined.
